(** * Website Summarizer (app.py): a shallow embedding and its properties

    The program is a Streamlit script.  Its decision logic is embedded here:

    - the Python [str] operations it relies on ([join], [replace], [strip],
      slicing, [len], decimal formatting of an [int]);
    - the fallback [load_summarize_chain] / [SimpleChain.run];
    - [load_url_content] under [st.cache_data];
    - [make_prompt];
    - the body of [if submit:] (called [main_logic] below);
    - the "Clear session" button, the session state and the debug panel
      (one run of the script is [script] below).

    External collaborators (the [validators] package, the URL loader, the
    Groq client, a LangChain chain when one can be imported) are fields of
    a record of collaborators; every call to one of them, and every
    Streamlit output call, is logged as an [event]. *)

From Stdlib Require Import ZArith NArith Lia DecimalString DecimalZ.
From stdpp Require Import base option list strings gmap.

Local Open Scope N_scope.
Local Open Scope nat_scope.

(* ===================================================================== *)
(** * Part I.  Definitions                                                *)
(* ===================================================================== *)

(** ** Python [str]: a sequence of Unicode code points *)

Abbreviation str := (list N).

(** An ASCII literal of the source as a [str]. *)
Definition lit (s : string) : str :=
  map Ascii.N_of_ascii (String.list_ascii_of_string s).

(** ["\n"] and ["\n\n"]. *)
Definition nl : str := [10%N].
Definition nlnl : str := nl ++ nl.

(** Truth value of a [str] ([not s] is [negb (str_truthy s)]). *)
Definition str_truthy (s : str) : bool :=
  match s with [] => false | _ :: _ => true end.

(** [sep.join(xs)]. *)
Fixpoint str_join (sep : str) (xs : list str) : str :=
  match xs with
  | [] => []
  | [x] => x
  | x :: rest => x ++ sep ++ str_join sep rest
  end.

(** [s.startswith(p)]. *)
Fixpoint str_startswith (p s : str) : bool :=
  match p, s with
  | [], _ => true
  | _ :: _, [] => false
  | a :: p', b :: s' => N.eqb a b && str_startswith p' s'
  end.

(** Left-to-right scan of [s.replace(old, new)] for a non-empty [old]:
    [skip] counts the characters of a match that are still to be stepped
    over, so that matches do not overlap. *)
Fixpoint replace_scan (old new : str) (skip : nat) (s : str) : str :=
  match s with
  | [] => []
  | c :: rest =>
      match skip with
      | S k => replace_scan old new k rest
      | O =>
          if str_startswith old (c :: rest)
          then new ++ replace_scan old new (length old - 1) rest
          else c :: replace_scan old new 0 rest
      end
  end.

(** [s.replace(old, new)]: every non-overlapping occurrence, leftmost
    first.  With an empty [old] Python puts [new] before every character
    and at the end. *)
Definition str_replace (old new s : str) : str :=
  match old with
  | [] => new ++ concat (map (fun c => c :: new) s)
  | _ :: _ => replace_scan old new 0 s
  end.

(** Scan of [s.count(sub)] for a non-empty [sub] (non-overlapping). *)
Fixpoint count_scan (sub : str) (skip : nat) (s : str) : nat :=
  match s with
  | [] => 0
  | c :: rest =>
      match skip with
      | S k => count_scan sub k rest
      | O =>
          if str_startswith sub (c :: rest)
          then S (count_scan sub (length sub - 1) rest)
          else count_scan sub 0 rest
      end
  end.

(** [s.count(sub)]. *)
Definition str_count (sub s : str) : nat :=
  match sub with
  | [] => S (length s)
  | _ :: _ => count_scan sub 0 s
  end.

(** [sub in s]. *)
Fixpoint str_contains (sub s : str) : bool :=
  str_startswith sub s ||
  match s with
  | [] => false
  | _ :: rest => str_contains sub rest
  end.

(** [sub] occurs in [s] as a contiguous substring. *)
Definition substring (sub s : str) : Prop :=
  exists pre post, s = pre ++ sub ++ post.

(** [c.isspace()] for one code point (the characters Python's
    parameterless [strip] removes). *)
Definition char_isspace (c : N) : bool :=
  ((9 <=? c) && (c <=? 13) || (28 <=? c) && (c <=? 32)
   || (c =? 133) || (c =? 160) || (c =? 5760)
   || (8192 <=? c) && (c <=? 8202)
   || (c =? 8232) || (c =? 8233) || (c =? 8239) || (c =? 8287)
   || (c =? 12288))%N.

Fixpoint str_lstrip (s : str) : str :=
  match s with
  | [] => []
  | c :: rest => if char_isspace c then str_lstrip rest else s
  end.

Definition str_rstrip (s : str) : str := rev (str_lstrip (rev s)).

(** [s.strip()]. *)
Definition str_strip (s : str) : str := str_rstrip (str_lstrip s).

(** [str(n)] for an [int], which is also what [f"{n}"] inserts. *)
Definition str_of_int (n : Z) : str :=
  lit (NilZero.string_of_int (Z.to_int n)).

(** The code points of the decimal digits. *)
Definition is_digit (c : N) : Prop := (48 <= c <= 57)%N.

(** ** Documents, prompt templates, exceptions *)

(** A loaded document; only [page_content] is read by the program. *)
Record Document := mkDocument { page_content : str }.

(** [PromptTemplate(template=..., input_variables=[...])]. *)
Record PromptTemplate := mkPromptTemplate {
  template : str;
  input_variables : list str
}.

(** The message object returned by [llm.invoke]. *)
Record AIMessage := mkAIMessage { content : str }.

Inductive exc_class :=
| TypeError
| AttributeError
| ValueError
| ConnectionError
| RuntimeError
| UnicodeEncodeError.

(** An exception instance (all are subclasses of [Exception]):
    its class and [str(e)]. *)
Record exn := mkExn { exn_class : exc_class; exn_str : str }.

Definition is_TypeError (e : exn) : bool :=
  match exn_class e with TypeError => true | _ => false end.

(** [isinstance(e, Exception)]. *)
Definition is_Exception (e : exn) : bool := true.

Inductive result (A : Type) :=
| Ok (a : A)
| Raise (e : exn).
Arguments Ok {A} a.
Arguments Raise {A} e.

(** The model client: its primary and its legacy entry point. *)
Record LLM := mkLLM {
  invoke : str -> result AIMessage;
  predict : str -> result str
}.

(** Contents of the [st.session_state.update({...})] call. *)
Record session_entry := mkSession {
  ss_url : str;
  ss_docs : list Document;
  ss_prompt : PromptTemplate;
  ss_chain_type : str;
  ss_summary : str;
  ss_model : str
}.

(** ** Observable events: Streamlit output and calls to collaborators *)

Inductive event :=
| StError (msg : str)
| StException (e : exn)
| StSpinner (msg : str)
| StTextArea (label body : str) (height : Z)
| StSuccess (msg : str)
| StSubheader (msg : str)
| StWrite (body : str)
| StSessionUpdate (s : session_entry)
| StDownloadButton (label data file_name mime : str)
| ValidatorsUrl (url : str)
| UrlLoaderLoad (urls : list str) (ssl_verify : bool)
                (headers : list (str * str))
| ChatGroqNew (model key : str)
| LoadSummarizeChain (chain_type : str)
| ChainRunKw (docs : list Document)
| ChainRunPos (docs : list Document)
| LlmInvoke (prompt : str)
| LlmPredict (prompt : str).

(** A network fetch. *)
Definition is_fetch (ev : event) : bool :=
  match ev with UrlLoaderLoad _ _ _ => true | _ => false end.

(** A call of the URL validator. *)
Definition is_validation (ev : event) : bool :=
  match ev with ValidatorsUrl _ => true | _ => false end.

(** A call to the model client. *)
Definition is_inference (ev : event) : bool :=
  match ev with LlmInvoke _ | LlmPredict _ => true | _ => false end.

(** Any step of the summarization pipeline. *)
Definition is_pipeline (ev : event) : bool :=
  match ev with
  | ChatGroqNew _ _ | LoadSummarizeChain _
  | ChainRunKw _ | ChainRunPos _ | LlmInvoke _ | LlmPredict _ => true
  | _ => false
  end.

(** The keyword call and the positional call of [chain.run]. *)
Definition is_run_kw (ev : event) : bool :=
  match ev with ChainRunKw _ => true | _ => false end.
Definition is_run_pos (ev : event) : bool :=
  match ev with ChainRunPos _ => true | _ => false end.

(** A call counter, as one would put on a test double. *)
Fixpoint count_events (p : event -> bool) (evs : list event) : nat :=
  match evs with
  | [] => 0
  | ev :: rest => (if p ev then 1 else 0) + count_events p rest
  end.

(** ** The effect monad: [st.cache_data] store, events, exceptions *)

Abbreviation cache := (gmap (list N) (list Document)).

Definition M (A : Type) : Type := cache -> result A * cache * list event.

Definition ret {A} (a : A) : M A := fun c => (Ok a, c, []).

Definition bind {A B} (m : M A) (k : A -> M B) : M B :=
  fun c =>
    match m c with
    | (Ok a, c1, ev1) =>
        match k a c1 with (r, c2, ev2) => (r, c2, ev1 ++ ev2) end
    | (Raise e, c1, ev1) => (Raise e, c1, ev1)
    end.

Notation "x <- m ;; k" := (bind m (fun x => k))
  (at level 100, m at next level, right associativity).
Notation "m ;; k" := (bind m (fun _ => k))
  (at level 100, right associativity).

Definition emit (ev : event) : M unit := fun c => (Ok tt, c, [ev]).

Definition raise {A} (e : exn) : M A := fun c => (Raise e, c, []).

Definition lift {A} (r : result A) : M A := fun c => (r, c, []).

(** [try: body  except <class>: handler]; [catches] is the class test. *)
Definition try_except {A} (body : M A) (catches : exn -> bool)
    (handler : exn -> M A) : M A :=
  fun c =>
    match body c with
    | (Ok a, c1, ev1) => (Ok a, c1, ev1)
    | (Raise e, c1, ev1) =>
        if catches e
        then match handler e c1 with (r, c2, ev2) => (r, c2, ev1 ++ ev2) end
        else (Raise e, c1, ev1)
    end.

Definition result_of {A} (x : result A * cache * list event) : result A :=
  x.1.1.
Definition cache_of {A} (x : result A * cache * list event) : cache :=
  x.1.2.
Definition events_of {A} (x : result A * cache * list event) : list event :=
  x.2.

(** ** Text that leaves the program: UTF-8 *)

(** The code points U+D800 to U+DFFF.  A Python [str] may hold them (a
    model answer decoded from JSON escapes can), and UTF-8 has no encoding
    for them. *)
Definition is_surrogate (ch : N) : bool :=
  ((55296 <=? ch) && (ch <=? 57343))%N.

Definition utf8_encodable (s : str) : bool :=
  forallb (fun ch => negb (is_surrogate ch)) s.

(** The UTF-8 bytes of one code point (up to U+10FFFF, the largest a
    Python [str] holds). *)
Definition utf8_char (ch : N) : list N :=
  (if ch <? 128 then [ch]
   else if ch <? 2048 then [192 + ch / 64; 128 + ch mod 64]
   else if ch <? 65536
   then [224 + ch / 4096; 128 + (ch / 64) mod 64; 128 + ch mod 64]
   else [240 + ch / 262144; 128 + (ch / 4096) mod 64;
         128 + (ch / 64) mod 64; 128 + ch mod 64])%N.

Definition utf8_bytes (s : str) : list N := concat (map utf8_char s).

(** The exception of the "utf-8" codec on a surrogate; its message also
    names the character and its position, which are left out here. *)
Definition surrogates_not_allowed : exn :=
  mkExn UnicodeEncodeError
    (lit "'utf-8' codec can't encode character: surrogates not allowed").

(** [s.encode("utf-8")]. *)
Definition encode_utf8 (s : str) : result (list N) :=
  if utf8_encodable s then Ok (utf8_bytes s)
  else Raise surrogates_not_allowed.

(** [st.write(body)] for a string: Streamlit sends the text to the browser
    encoded in UTF-8, and the call raises on a text that cannot be
    encoded.  Of the texts the script displays, this is the one that comes
    from the model client. *)
Definition st_write (body : str) : M unit :=
  if utf8_encodable body then emit (StWrite body)
  else raise surrogates_not_allowed.

(** ** Collaborators *)

(** A chain object.  [LibraryChain] stands for what an importable
    [load_summarize_chain] returns: its [run] is third-party code, given
    here by its signature (does it take the documents under the name
    [input_documents]? does it take them positionally?) and by the
    outcome of its body.  [SimpleChain] is the class defined by the
    fallback [load_summarize_chain] of app.py. *)
Inductive Chain :=
| LibraryChain (takes_keyword takes_positional : bool)
               (run_body : list Document -> result str)
| SimpleChain (llm : LLM) (prompt : option PromptTemplate).

Definition chain_factory : Type :=
  LLM -> str -> option PromptTemplate -> result Chain.

Record collaborators := mkCollaborators {
  (** truth value of [validators.url(url)] *)
  validators_url : str -> bool;
  (** [UnstructuredURLLoader(urls=, ssl_verify=, headers=).load()] *)
  url_loader_load :
    list str -> bool -> list (str * str) -> result (list Document);
  (** [ChatGroq(model=, groq_api_key=)] *)
  ChatGroq : str -> str -> LLM;
  (** [from langchain.chains.summarize import load_summarize_chain];
      [None] when the import raises *)
  import_chains_summarize : option chain_factory;
  (** [from langchain.chains import load_summarize_chain] *)
  import_chains : option chain_factory
}.

(** ** The fallback chain (app.py, lines 37-57) *)

(** [input_documents or []]. *)
Definition or_empty (input_documents : option (list Document))
    : list Document :=
  match input_documents with
  | None => []
  | Some [] => []
  | Some (d :: ds) => d :: ds
  end.

(** [getattr(self.prompt, "template", "{text}")]: a prompt that is [None]
    has no such attribute. *)
Definition getattr_template (prompt : option PromptTemplate) : str :=
  match prompt with
  | Some p => template p
  | None => lit "{text}"
  end.

(** The local [final_prompt] of [SimpleChain.run]. *)
Definition final_prompt (prompt : option PromptTemplate)
    (input_documents : option (list Document)) : str :=
  let text := str_join nlnl (map page_content (or_empty input_documents)) in
  let template := getattr_template prompt in
  str_replace (lit "{text}") text template.

(** [SimpleChain.run(self, input_documents=None)]. *)
Definition SimpleChain_run (llm : LLM) (prompt : option PromptTemplate)
    (input_documents : option (list Document)) : M str :=
  let final_prompt := final_prompt prompt input_documents in
  try_except
    (emit (LlmInvoke final_prompt);;
     msg <- lift (invoke llm final_prompt);;
     ret (content msg))
    is_Exception
    (fun _ =>
       try_except
         (emit (LlmPredict final_prompt);;
          lift (predict llm final_prompt))
         is_Exception
         (fun _ => ret (take 5000 final_prompt))).

(** The fallback [load_summarize_chain(llm, chain_type="stuff", prompt=None)]. *)
Definition fallback_load_summarize_chain : chain_factory :=
  fun llm chain_type prompt => Ok (SimpleChain llm prompt).

(** The name [load_summarize_chain] after the nested [try]/[except] of the
    imports (lines 30-57). *)
Definition load_summarize_chain (env : collaborators) : chain_factory :=
  match import_chains_summarize env with
  | Some f => f
  | None =>
      match import_chains env with
      | Some f => f
      | None => fallback_load_summarize_chain
      end
  end.

(** The [TypeError] with which Python refuses a call that does not fit
    the signature of [run]. *)
Definition unexpected_keyword : exn :=
  mkExn TypeError
    (lit "run() got an unexpected keyword argument 'input_documents'").
Definition too_many_positional : exn :=
  mkExn TypeError
    (lit "run() takes 1 positional argument but 2 were given").

(** [chain.run(input_documents=docs)]. *)
Definition chain_run_kw (chain : Chain) (docs : list Document) : M str :=
  emit (ChainRunKw docs);;
  match chain with
  | LibraryChain takes_keyword _ run_body =>
      if takes_keyword then lift (run_body docs)
      else raise unexpected_keyword
  | SimpleChain llm prompt => SimpleChain_run llm prompt (Some docs)
  end.

(** [chain.run(docs)]. *)
Definition chain_run_pos (chain : Chain) (docs : list Document) : M str :=
  emit (ChainRunPos docs);;
  match chain with
  | LibraryChain _ takes_positional run_body =>
      if takes_positional then lift (run_body docs)
      else raise too_many_positional
  | SimpleChain llm prompt => SimpleChain_run llm prompt (Some docs)
  end.

(** ** Helpers (lines 108-124) *)

(** Modelled from the spec: [st.cache_data], the decorator on
    [load_url_content], is Streamlit's and is not defined in the
    repository.  Spec 4.2: it "caches results keyed by the exact URL string
    for the duration of the process/session: repeated calls with the same
    URL return the previously fetched result without a new network round
    trip", with "no explicit cache invalidation".  A call that raises has
    no result to keep. *)
Definition st_cache_data (f : str -> M (list Document)) (url : str)
    : M (list Document) :=
  fun c =>
    match c !! url with
    | Some docs => (Ok docs, c, [])
    | None =>
        match f url c with
        | (Ok docs, c1, ev) => (Ok docs, <[url := docs]> c1, ev)
        | (Raise e, c1, ev) => (Raise e, c1, ev)
        end
    end.

(** [{"User-Agent": "Mozilla/5.0"}]. *)
Definition user_agent : list (str * str) :=
  [(lit "User-Agent", lit "Mozilla/5.0")].

(** The undecorated body of [load_url_content]. *)
Definition load_url_content_body (env : collaborators) (url : str)
    : M (list Document) :=
  let urls := [url] in
  let ssl_verify := false in
  let headers := user_agent in
  emit (UrlLoaderLoad urls ssl_verify headers);;
  lift (url_loader_load env urls ssl_verify headers).

(** [load_url_content], decorated. *)
Definition load_url_content (env : collaborators) : str -> M (list Document) :=
  st_cache_data (load_url_content_body env).

(** [make_prompt(words)]: three adjacent literals, of which only the first
    is an f-string. *)
Definition make_prompt (words : Z) : PromptTemplate :=
  let template :=
    (lit "Provide a clear, neutral summary in about " ++ str_of_int words
       ++ lit " words." ++ nlnl)
    ++ (lit "Content:" ++ nl ++ lit "{text}" ++ nlnl)
    ++ lit "Include key points and conclusions." in
  mkPromptTemplate template [lit "text"].

(** The static text of that template before and after [{text}]. *)
Definition prompt_head (words : Z) : str :=
  lit "Provide a clear, neutral summary in about " ++ str_of_int words
    ++ lit " words." ++ nlnl ++ lit "Content:" ++ nl.
Definition prompt_tail : str :=
  nlnl ++ lit "Include key points and conclusions.".

(** ** Main logic (lines 126-188) *)

(** The widget values read by the script. *)
Record inputs := mkInputs {
  groq_api_key : str;
  summary_words : Z;
  show_extracted : bool;
  chain_type : str;
  dev_mode : bool;
  url : str;
  submit : bool
}.

Definition model_name : str := lit "llama-3.1-8b-instant".

(** Lines 160-163: the keyword call and its positional retry. *)
Definition run_chain (chain : Chain) (docs : list Document) : M str :=
  try_except (chain_run_kw chain docs)
    is_TypeError
    (fun _ => chain_run_pos chain docs).

(** The [else] branch taken when documents were loaded (lines 141-181). *)
Definition summarize_and_show (env : collaborators) (i : inputs)
    (docs : list Document) : M unit :=
  (if show_extracted i
   then emit (StTextArea (lit "Extracted Content (preview)")
                (str_join nlnl (map (fun d => take 3000 (page_content d)) docs))
                250)
   else ret tt);;
  emit (ChatGroqNew model_name (groq_api_key i));;
  let llm := ChatGroq env model_name (groq_api_key i) in
  let prompt := make_prompt (summary_words i) in
  emit (StSpinner (lit "Summarizing..."));;
  emit (LoadSummarizeChain (chain_type i));;
  chain <- lift (load_summarize_chain env llm (chain_type i) (Some prompt));;
  summary <- run_chain chain docs;;
  emit (StSuccess (lit "Summary generated"));;
  emit (StSubheader (lit "Summary"));;
  st_write summary;;
  emit (StSessionUpdate
          (mkSession (url i) docs prompt (chain_type i) summary model_name));;
  buf <- lift (encode_utf8 summary);;
  emit (StDownloadButton (lit "Download summary") buf
          (lit "summary.txt") (lit "text/plain")).

(** The body of [if submit:]. *)
Definition main_logic (env : collaborators) (i : inputs) : M unit :=
  if negb (submit i) then ret tt
  else if negb (str_truthy (str_strip (groq_api_key i)))
  then emit (StError (lit "Groq API key is required."))
  else
    emit (ValidatorsUrl (url i));;
    if negb (validators_url env (url i))
    then emit (StError (lit "Enter a valid URL including http:// or https://"))
    else
      try_except
        (emit (StSpinner (lit "Loading website..."));;
         docs <- load_url_content env (url i);;
         match docs with
         | [] => emit (StError (lit "No content found."))
         | _ :: _ => summarize_and_show env i docs
         end)
        is_Exception
        (fun e =>
           emit (StError (lit "Error: " ++ exn_str e));;
           if dev_mode i then emit (StException e) else ret tt).

(** ** Vocabulary of the specification *)

(** The outcome the specification asks of a summarization call:
    non-empty text, or an exception. *)
Definition text_or_error (r : result str) : Prop :=
  match r with
  | Ok s => s <> []
  | Raise _ => True
  end.

(** The signature of [chain.run] takes the documents under the name
    [input_documents]. *)
Definition accepts_keyword (chain : Chain) : bool :=
  match chain with
  | LibraryChain takes_keyword _ _ => takes_keyword
  | SimpleChain _ _ => true
  end.

(** What section 4.4, item 5 of the specification says of the retry: a
    keyword call that fits the signature is never followed by a
    positional call. *)
Definition retry_only_on_mismatch (chain : Chain) (docs : list Document)
    (c : cache) : Prop :=
  accepts_keyword chain = true ->
  count_events is_run_pos (events_of (run_chain chain docs c)) = 0.

(** The calling boundary of section 8 of the specification: a call of
    [chain.run] is given at least one document. *)
Definition run_gets_documents (ev : event) : Prop :=
  match ev with
  | ChainRunKw docs | ChainRunPos docs => docs <> []
  | _ => True
  end.

(** ** Test doubles *)

Definition doc_A : Document := mkDocument (lit "A").
Definition doc_B : Document := mkDocument (lit "B").

(** A client whose two entry points raise. *)
Definition llm_down : LLM :=
  mkLLM (fun _ => Raise (mkExn AttributeError (lit "invoke")))
        (fun _ => Raise (mkExn ConnectionError (lit "predict"))).

(** A client that answers with an empty message. *)
Definition llm_silent : LLM :=
  mkLLM (fun _ => Ok (mkAIMessage [])) (fun _ => Ok []).

(** A library chain whose [run] takes the keyword and whose body raises a
    [TypeError] of its own. *)
Definition chain_body_type_error : Chain :=
  LibraryChain true true
    (fun _ => Raise (mkExn TypeError
                       (lit "expected str instance, NoneType found"))).

(** A client that answers. *)
Definition llm_up : LLM :=
  mkLLM (fun _ => Ok (mkAIMessage (lit "A short summary.")))
        (fun _ => Ok (lit "A short summary.")).

(** No importable [load_summarize_chain]; a validator double that accepts
    every string; a loader double that finds [pages]. *)
Definition env_fallback (pages : result (list Document)) : collaborators :=
  mkCollaborators
    (fun _ => true)
    (fun _ _ _ => pages)
    (fun _ _ => llm_down)
    None None.

(** The same with a client that answers. *)
Definition env_answering (pages : result (list Document)) : collaborators :=
  mkCollaborators (fun _ => true) (fun _ _ _ => pages) (fun _ _ => llm_up)
    None None.

Definition sample_inputs (key : str) : inputs :=
  mkInputs key 300 false (lit "stuff") false
    (lit "https://example.com/article") true.

(** ** Reports of the handler *)

Definition is_error (ev : event) : bool :=
  match ev with StError _ => true | _ => false end.
Definition is_success (ev : event) : bool :=
  match ev with StSuccess _ => true | _ => false end.
Definition is_write (ev : event) : bool :=
  match ev with StWrite _ => true | _ => false end.
Definition is_session_update (ev : event) : bool :=
  match ev with StSessionUpdate _ => true | _ => false end.
Definition is_download (ev : event) : bool :=
  match ev with StDownloadButton _ _ _ _ => true | _ => false end.
Definition is_preview (ev : event) : bool :=
  match ev with StTextArea _ _ _ => true | _ => false end.

(** The events of a log that [p] does not select. *)
Fixpoint without (p : event -> bool) (evs : list event) : list event :=
  match evs with
  | [] => []
  | ev :: rest => if p ev then without p rest else ev :: without p rest
  end.

(** The bodies handed to [st.write], in order. *)
Fixpoint written (evs : list event) : list str :=
  match evs with
  | [] => []
  | StWrite body :: rest => body :: written rest
  | _ :: rest => written rest
  end.

(** The text of the preview (line 143). *)
Definition preview (docs : list Document) : str :=
  str_join nlnl (map (fun d => take 3000 (page_content d)) docs).

(** What the handler logs up to the call of the loader. *)
Definition before_load (i : inputs) : list event :=
  [ValidatorsUrl (url i); StSpinner (lit "Loading website...")].

(** What it logs between the loader and the call of the chain
    (lines 140-159). *)
Definition before_run (i : inputs) (docs : list Document) : list event :=
  (if show_extracted i
   then [StTextArea (lit "Extracted Content (preview)") (preview docs) 250]
   else [])
  ++ [ChatGroqNew model_name (groq_api_key i);
      StSpinner (lit "Summarizing...");
      LoadSummarizeChain (chain_type i)].

(** The [except Exception as e] block (lines 186-189). *)
Definition error_report (i : inputs) (e : exn) : list event :=
  StError (lit "Error: " ++ exn_str e)
    :: (if dev_mode i then [StException e] else []).

(** Lines 165-184, for a summary that UTF-8 can encode; the download
    carries its bytes. *)
Definition success_report (i : inputs) (docs : list Document)
    (summary : str) : list event :=
  [StSuccess (lit "Summary generated");
   StSubheader (lit "Summary");
   StWrite summary;
   StSessionUpdate
     (mkSession (url i) docs (make_prompt (summary_words i)) (chain_type i)
        summary model_name);
   StDownloadButton (lit "Download summary") (utf8_bytes summary)
     (lit "summary.txt") (lit "text/plain")].

(** Lines 165-167 and 186-189, for a summary that UTF-8 cannot encode:
    [st.write] raises after the success message, and the run ends in the
    [except] block. *)
Definition unwritable_report (i : inputs) : list event :=
  [StSuccess (lit "Summary generated"); StSubheader (lit "Summary")]
  ++ error_report i surrogates_not_allowed.

(** What the fallback chain answers on the prompt [p]: the text of the
    first of its three layers that does not raise. *)
Definition fallback_answer (llm : LLM) (p : str) : str :=
  match invoke llm p with
  | Ok msg => content msg
  | Raise _ =>
      match predict llm p with
      | Ok s => s
      | Raise _ => take 5000 p
      end
  end.

(** The arguments with which the handler of inputs [i] may call its
    collaborators. *)
Definition called_with (i : inputs) (ev : event) : Prop :=
  match ev with
  | ValidatorsUrl u => u = url i
  | UrlLoaderLoad urls ssl_verify headers =>
      urls = [url i] /\ ssl_verify = false /\ headers = user_agent
  | ChatGroqNew model key => model = model_name /\ key = groq_api_key i
  | LoadSummarizeChain ct => ct = chain_type i
  | _ => True
  end.

(** ** Session state and the debug panel (lines 96-100, 191-202) *)

(** The values the script keeps in [st.session_state]. *)
Inductive session_value :=
| SBool (b : bool)
| SStr (s : str)
| SDocs (docs : list Document)
| SPrompt (p : PromptTemplate).

Abbreviation session_state := (gmap string session_value).

(** [st.session_state.update({...})] (lines 169-176). *)
Definition session_state_update (s : session_entry) (ss : session_state)
    : session_state :=
  <["model" := SStr (ss_model s)]>
    (<["summary" := SStr (ss_summary s)]>
       (<["chain_type" := SStr (ss_chain_type s)]>
          (<["prompt" := SPrompt (ss_prompt s)]>
             (<["docs" := SDocs (ss_docs s)]>
                (<["url" := SStr (ss_url s)]> ss))))).

(** The session state after the updates logged in [evs]. *)
Definition session_after (evs : list event) (ss : session_state)
    : session_state :=
  fold_left
    (fun acc ev =>
       match ev with
       | StSessionUpdate s => session_state_update s acc
       | _ => acc
       end)
    evs ss.

(** [len(v)], for the values that have a length. *)
Definition session_len (v : session_value) : option nat :=
  match v with
  | SStr s => Some (length s)
  | SDocs docs => Some (length docs)
  | SBool _ | SPrompt _ => None
  end.

(** The dictionary shown by [st.code] and the template shown below it. *)
Record debug_info := mkDebugInfo {
  dbg_python : str;
  dbg_model : session_value;
  dbg_chain_type : session_value;
  dbg_documents : nat;
  dbg_summary_chars : nat;
  dbg_prompt_template : str
}.

(** What becomes of the debug panel: not shown, shown, or one of the
    exceptions its lookups can raise (nothing catches them). *)
Inductive panel :=
| Hidden
| Shown (info : debug_info)
| PanelKeyError (key : string)
| PanelTypeError
| PanelAttributeError.

(** Lines 192-202; [python] is [sys.version]. *)
Definition debug_panel (python : str) (dev_mode : bool) (ss : session_state)
    : panel :=
  if dev_mode && bool_decide (is_Some (ss !! "summary"))
  then
    match ss !! "model" with
    | None => PanelKeyError "model"
    | Some model =>
    match ss !! "chain_type" with
    | None => PanelKeyError "chain_type"
    | Some ct =>
    match ss !! "docs" with
    | None => PanelKeyError "docs"
    | Some docs =>
    match session_len docs with
    | None => PanelTypeError
    | Some documents =>
    match ss !! "summary" with
    | None => PanelKeyError "summary"
    | Some summary =>
    match session_len summary with
    | None => PanelTypeError
    | Some summary_chars =>
    match ss !! "prompt" with
    | None => PanelKeyError "prompt"
    | Some (SPrompt p) =>
        Shown (mkDebugInfo python model ct documents summary_chars
                 (template p))
    | Some _ => PanelAttributeError
    end end end end end end end
  else Hidden.

(** How one run of the script ends. *)
Inductive run_end :=
| Rerun
| Crashed (e : exn)
| Done (p : panel).

Record run_result := mkRun {
  run_session : session_state;
  run_cache : cache;
  run_events : list event;
  run_ending : run_end
}.

(** One run of the script from the sidebar on: the "Clear session" button
    (lines 96-98) empties the session state and asks for a rerun, which
    ends the run there; otherwise [dev_mode] is stored (line 100), the
    main logic runs and the debug panel follows. *)
Definition script (env : collaborators) (python : str) (clear_session : bool)
    (i : inputs) (ss : session_state) (c : cache) : run_result :=
  if clear_session then mkRun ∅ c [] Rerun
  else
    let ss1 := <["dev_mode" := SBool (dev_mode i)]> ss in
    let out := main_logic env i c in
    let ss2 := session_after (events_of out) ss1 in
    mkRun ss2 (cache_of out) (events_of out)
      match result_of out with
      | Ok _ => Done (debug_panel python (dev_mode i) ss2)
      | Raise e => Crashed e
      end.

(** A session: the runs of the script one after the other, each with the
    state of the buttons and widgets at that run, from an empty session
    state. *)
Fixpoint session (env : collaborators) (python : str)
    (runs : list (bool * inputs)) (ss : session_state) (c : cache)
    : session_state * cache :=
  match runs with
  | [] => (ss, c)
  | (clear_session, i) :: rest =>
      let r := script env python clear_session i ss c in
      session env python rest (run_session r) (run_cache r)
  end.

(** The summary keys of the session state are all there, with values of
    the kinds the debug panel reads. *)
Definition session_complete (ss : session_state) : Prop :=
  exists model ct docs summary p,
    ss !! "model" = Some (SStr model)
    /\ ss !! "chain_type" = Some (SStr ct)
    /\ ss !! "docs" = Some (SDocs docs)
    /\ ss !! "summary" = Some (SStr summary)
    /\ ss !! "prompt" = Some (SPrompt p).

Definition session_wf (ss : session_state) : Prop :=
  ss !! "summary" = None \/ session_complete ss.

(** A panel that did not raise. *)
Definition panel_ok (p : panel) : Prop :=
  match p with
  | Hidden | Shown _ => True
  | _ => False
  end.

(* ===================================================================== *)
(** * Part II.  Properties                                                *)
(* ===================================================================== *)

(** ** The [str] operations on Python's own examples *)

Example str_join_example :
  str_join (lit ", ") [lit "a"; lit "b"; lit "c"] = lit "a, b, c".
Proof. reflexivity. Qed.

Example str_replace_leftmost_first :
  str_replace (lit "aa") (lit "b") (lit "aaaaa") = lit "bba".
Proof. reflexivity. Qed.

Example str_replace_does_not_rescan :
  str_replace (lit "{text}") (lit "{text}!") (lit "<{text}>") = lit "<{text}!>".
Proof. reflexivity. Qed.

Example str_replace_empty_old :
  str_replace [] (lit "-") (lit "abc") = lit "-a-b-c-".
Proof. reflexivity. Qed.

Example str_count_non_overlapping :
  str_count (lit "aa") (lit "aaaaa") = 2 /\ str_count [] (lit "abc") = 4.
Proof. split; reflexivity. Qed.

Example str_strip_example :
  str_strip (9%N :: lit "  a b " ++ nl) = lit "a b".
Proof. reflexivity. Qed.

Example str_of_int_examples :
  str_of_int 300 = lit "300" /\ str_of_int 0 = lit "0"
  /\ str_of_int (-12) = lit "-12".
Proof. repeat split; reflexivity. Qed.

Example utf8_bytes_examples :
  utf8_bytes (lit "summary") = lit "summary"
  /\ utf8_bytes [233%N] = [195%N; 169%N]
  /\ utf8_bytes [8364%N] = [226%N; 130%N; 172%N]
  /\ utf8_bytes [128512%N] = [240%N; 159%N; 152%N; 128%N].
Proof. repeat split; reflexivity. Qed.

Example encode_utf8_surrogate :
  encode_utf8 (lit "ab" ++ [55296%N]) = Raise surrogates_not_allowed
  /\ encode_utf8 (lit "ab") = Ok (lit "ab").
Proof. split; reflexivity. Qed.

(** ** Laws of the [str] operations *)

Lemma str_startswith_app (p s : str) : str_startswith p (p ++ s) = true.
Proof.
  induction p as [|a p IH]; simpl; [done|].
  by rewrite N.eqb_refl, IH.
Qed.

Lemma str_startswith_prefix (p s : str) :
  str_startswith p s = true <-> exists t, s = p ++ t.
Proof.
  split.
  - revert s. induction p as [|a p IH]; intros s H.
    + by exists s.
    + destruct s as [|b s]; simpl in H; [done|].
      apply andb_true_iff in H as [Hab Hps].
      apply N.eqb_eq in Hab as ->.
      destruct (IH _ Hps) as [t ->]. by exists t.
  - intros [t ->]. apply str_startswith_app.
Qed.

Lemma str_startswith_head (h c : N) (t s : str) :
  c <> h -> str_startswith (h :: t) (c :: s) = false.
Proof.
  intros Hne. simpl. destruct (N.eqb_spec h c) as [->|]; [done|done].
Qed.

Section replace_laws.
Variables (h : N) (t new : str).
Let old : str := h :: t.

Lemma replace_scan_drop (k : nat) (s : str) :
  replace_scan old new k s = replace_scan old new 0 (drop k s).
Proof.
  revert k. induction s as [|c s IH]; intros [|k]; try reflexivity.
  simpl replace_scan at 1. rewrite IH. reflexivity.
Qed.

(** A match at the head is replaced and the scan resumes after it. *)
Lemma str_replace_match (s : str) :
  str_replace old new (old ++ s) = new ++ str_replace old new s.
Proof.
  unfold str_replace, old. change ((h :: t) ++ s) with (h :: (t ++ s)).
  cbn [replace_scan].
  change (h :: t ++ s) with ((h :: t) ++ s).
  rewrite str_startswith_app.
  rewrite replace_scan_drop.
  replace (length (h :: t) - 1) with (length t) by (simpl; lia).
  by rewrite drop_app_length.
Qed.

(** Without a match at the head, the head is kept. *)
Lemma str_replace_step (c : N) (s : str) :
  str_startswith old (c :: s) = false ->
  str_replace old new (c :: s) = c :: str_replace old new s.
Proof.
  intros H. unfold str_replace, old in *. cbn [replace_scan].
  by rewrite H.
Qed.

Lemma str_replace_nil : str_replace old new [] = [].
Proof. reflexivity. Qed.

(** Text in which the first character of [old] does not occur is
    copied. *)
Lemma str_replace_skip (pre s : str) :
  h ∉ pre ->
  str_replace old new (pre ++ s) = pre ++ str_replace old new s.
Proof.
  induction pre as [|c pre IH]; intros Hnot; [done|].
  apply not_elem_of_cons in Hnot as [Hc Hpre].
  change ((c :: pre) ++ s) with (c :: (pre ++ s)).
  rewrite str_replace_step by (apply str_startswith_head; congruence).
  by rewrite IH.
Qed.

Lemma str_replace_absent (s : str) :
  h ∉ s -> str_replace old new s = s.
Proof.
  intros H. rewrite <- (app_nil_r s) at 1.
  rewrite str_replace_skip by done.
  by rewrite str_replace_nil, app_nil_r.
Qed.

(** If the placeholder occurs at all, the replacement text occurs in
    the result. *)
Lemma str_replace_substring (s : str) :
  substring old s -> substring new (str_replace old new s).
Proof.
  intros (pre & post & ->).
  induction pre as [|c pre IH].
  - rewrite app_nil_l, str_replace_match.
    by exists [], (str_replace old new post).
  - change ((c :: pre) ++ old ++ post) with (c :: (pre ++ old ++ post)).
    destruct (str_startswith old (c :: (pre ++ old ++ post))) eqn:E.
    + apply str_startswith_prefix in E as [rest E]. rewrite E.
      rewrite str_replace_match. by exists [], (str_replace old new rest).
    + rewrite str_replace_step by done.
      destruct IH as (p1 & p2 & ->). by exists (c :: p1), p2.
Qed.

Lemma count_scan_drop (k : nat) (s : str) :
  count_scan old k s = count_scan old 0 (drop k s).
Proof.
  revert k. induction s as [|c s IH]; intros [|k]; try reflexivity.
  simpl count_scan at 1. rewrite IH. reflexivity.
Qed.

Lemma str_count_match (s : str) :
  str_count old (old ++ s) = S (str_count old s).
Proof.
  unfold str_count, old. change ((h :: t) ++ s) with (h :: (t ++ s)).
  cbn [count_scan].
  change (h :: t ++ s) with ((h :: t) ++ s).
  rewrite str_startswith_app.
  rewrite count_scan_drop.
  replace (length (h :: t) - 1) with (length t) by (simpl; lia).
  by rewrite drop_app_length.
Qed.

Lemma str_count_skip (pre s : str) :
  h ∉ pre -> str_count old (pre ++ s) = str_count old s.
Proof.
  induction pre as [|c pre IH]; intros Hnot; [done|].
  apply not_elem_of_cons in Hnot as [Hc Hpre].
  rewrite <- IH by done.
  unfold str_count, old. change ((c :: pre) ++ s) with (c :: (pre ++ s)).
  cbn [count_scan].
  by rewrite str_startswith_head by congruence.
Qed.

Lemma str_count_absent (s : str) : h ∉ s -> str_count old s = 0.
Proof.
  intros H. rewrite <- (app_nil_r s). by rewrite str_count_skip.
Qed.
End replace_laws.

(** [sub in s] decides [substring]. *)
Lemma str_contains_substring (sub s : str) :
  str_contains sub s = true <-> substring sub s.
Proof.
  split.
  - induction s as [|c s IH]; simpl; intros H.
    + rewrite orb_false_r in H.
      apply str_startswith_prefix in H as [t ->]. by exists [], t.
    + apply orb_true_iff in H as [H|H].
      * apply str_startswith_prefix in H as [t ->]. by exists [], t.
      * destruct (IH H) as (p1 & p2 & ->). by exists (c :: p1), p2.
  - intros (pre & post & ->).
    induction pre as [|c pre IH].
    + simpl app. destruct (sub ++ post) eqn:E; simpl;
        rewrite <- ?E, str_startswith_app; done.
    + change ((c :: pre) ++ sub ++ post) with (c :: (pre ++ sub ++ post)).
      cbn [str_contains]. rewrite IH. apply orb_true_r.
Qed.

Lemma substring_app_l (sub s pre : str) :
  substring sub s -> substring sub (pre ++ s).
Proof.
  intros (p1 & p2 & ->). exists (pre ++ p1), p2. by rewrite <- app_assoc.
Qed.

Lemma substring_app_r (sub s post : str) :
  substring sub s -> substring sub (s ++ post).
Proof.
  intros (p1 & p2 & ->). exists p1, (p2 ++ post). by rewrite <- !app_assoc.
Qed.

Lemma substring_refl (s : str) : substring s s.
Proof. exists [], []. by rewrite app_nil_r. Qed.

(** [str.join] of two strings, and of the contents of a document list. *)
Lemma str_join_cons (sep x y : str) (rest : list str) :
  str_join sep (x :: y :: rest) = x ++ sep ++ str_join sep (y :: rest).
Proof. reflexivity. Qed.

(** Decimal digits. *)
Lemma digits_of_uint (d : Decimal.uint) (c : N) :
  c ∈ lit (NilEmpty.string_of_uint d) -> is_digit c.
Proof.
  unfold is_digit.
  induction d; cbn; intros H; try (by apply elem_of_nil in H);
    apply elem_of_cons in H as [->|H]; try (cbv; split; discriminate); auto.
Qed.

Lemma str_of_int_chars (n : Z) (c : N) :
  c ∈ str_of_int n -> c = 45%N \/ is_digit c.
Proof.
  unfold str_of_int. destruct (Z.to_int n) as [d|d]; cbn.
  - intros H. right. destruct d; try (by apply (digits_of_uint _ _ H)).
    apply list_elem_of_singleton in H as ->. cbv; split; discriminate.
  - intros H. apply elem_of_cons in H as [->|H]; [by left|right].
    destruct d; try (by apply (digits_of_uint _ _ H)).
    apply list_elem_of_singleton in H as ->. cbv; split; discriminate.
Qed.

Lemma str_of_int_no_brace (n : Z) : 123%N ∉ str_of_int n.
Proof.
  intros H. apply str_of_int_chars in H as [H|[H1 H2]]; [done|].
  revert H2. cbv. auto.
Qed.

Lemma str_of_int_nonneg_digits (n : Z) (c : N) :
  (0 <= n)%Z -> c ∈ str_of_int n -> is_digit c.
Proof.
  unfold str_of_int. intros Hn.
  destruct n as [|p|p]; try lia; cbn.
  - intros H. apply list_elem_of_singleton in H as ->. cbv; split; discriminate.
  - intros H. destruct (Pos.to_uint p); try (by apply (digits_of_uint _ _ H)).
    apply list_elem_of_singleton in H as ->. cbv; split; discriminate.
Qed.

(** Whitespace. *)
Lemma str_lstrip_spaces (s : str) :
  forallb char_isspace s = true -> str_lstrip s = [].
Proof.
  induction s as [|c s IH]; simpl; [done|].
  intros H. apply andb_true_iff in H as [-> H]. auto.
Qed.

Lemma str_strip_spaces (s : str) :
  forallb char_isspace s = true -> str_strip s = [].
Proof.
  intros H. unfold str_strip. by rewrite str_lstrip_spaces.
Qed.

(** ** The fallback chain *)

Lemma or_empty_Some (docs : list Document) : or_empty (Some docs) = docs.
Proof. by destruct docs. Qed.

Lemma final_prompt_Some (prompt : option PromptTemplate) (docs : list Document) :
  final_prompt prompt (Some docs) =
  str_replace (lit "{text}") (str_join nlnl (map page_content docs))
    (getattr_template prompt).
Proof. unfold final_prompt. by rewrite or_empty_Some. Qed.

(** The three layers of [SimpleChain.run], one equation. *)
Lemma SimpleChain_run_layers (llm : LLM) (prompt : option PromptTemplate)
    (input_documents : option (list Document)) (c : cache) :
  SimpleChain_run llm prompt input_documents c =
  let p := final_prompt prompt input_documents in
  match invoke llm p with
  | Ok msg => (Ok (content msg), c, [LlmInvoke p])
  | Raise _ =>
      match predict llm p with
      | Ok s => (Ok s, c, [LlmInvoke p; LlmPredict p])
      | Raise _ => (Ok (take 5000 p), c, [LlmInvoke p; LlmPredict p])
      end
  end.
Proof.
  unfold SimpleChain_run, try_except, bind, emit, lift, ret. simpl.
  destruct (invoke llm _); simpl; [done|].
  destruct (predict llm _); simpl; done.
Qed.

(** [SimpleChain.run] returns; no exception leaves it. *)
Lemma SimpleChain_run_total (llm : LLM) (prompt : option PromptTemplate)
    (input_documents : option (list Document)) (c : cache) :
  exists s, result_of (SimpleChain_run llm prompt input_documents c) = Ok s.
Proof.
  rewrite SimpleChain_run_layers. cbv zeta.
  destruct (invoke llm _); [by eexists|].
  destruct (predict llm _); by eexists.
Qed.

(** C1, as stated, fails: with the template of [make_prompt 300] and one
    document, a client that answers with an empty message makes
    [SimpleChain.run] return the empty string as its result. *)
Lemma run_may_return_empty :
  ~ text_or_error
      (result_of (SimpleChain_run llm_silent (Some (make_prompt 300))
                    (Some [doc_A]) ∅)).
Proof. vm_compute. intros H. by apply H. Qed.

(** C1, amended: [SimpleChain.run] never raises.  It calls [llm.invoke] on
    the rendered prompt and returns the content of its answer; if that
    call raises it calls [llm.predict] and returns its text; if that raises
    too it returns the first 5000 characters of the rendered prompt.  The
    string returned is empty exactly when the layer that produced it gave
    empty text: the primary method returned an empty content, or the
    primary method raised and the secondary returned the empty string, or
    both raised and the rendered prompt itself is empty; in those cases
    the empty string is the successful result. *)
Theorem run_returns_text_of_first_layer (llm : LLM)
    (prompt : option PromptTemplate)
    (input_documents : option (list Document)) (c : cache) :
  let p := final_prompt prompt input_documents in
  let out := SimpleChain_run llm prompt input_documents c in
  out =
    match invoke llm p with
    | Ok msg => (Ok (content msg), c, [LlmInvoke p])
    | Raise _ =>
        match predict llm p with
        | Ok s => (Ok s, c, [LlmInvoke p; LlmPredict p])
        | Raise _ => (Ok (take 5000 p), c, [LlmInvoke p; LlmPredict p])
        end
    end
  /\ (exists s : str, result_of out = Ok s)
  /\ (result_of out = Ok []
      <-> invoke llm p = Ok (mkAIMessage [])
          \/ ((exists e, invoke llm p = Raise e) /\ predict llm p = Ok [])
          \/ ((exists e, invoke llm p = Raise e) /\
              (exists e, predict llm p = Raise e) /\ p = [])).
Proof.
  intros p out. subst out. rewrite SimpleChain_run_layers. cbv zeta. fold p.
  split; [done|].
  destruct (invoke llm p) as [[body]|e1] eqn:Hi.
  - split; [by eexists|]. cbn [result_of fst content]. split.
    + intros [= ->]. by left.
    + intros [[= ->] | [[[e He] _] | [[e He] _]]]; done.
  - destruct (predict llm p) as [s|e2] eqn:Hp.
    + split; [by eexists|]. cbn [result_of fst]. split.
      * intros [= ->]. right; left. eauto.
      * intros [H | [[_ [= ->]] | [_ [[e He] _]]]]; done.
    + split; [by eexists|]. cbn [result_of fst]. split.
      * intros [= Hnil]. right; right.
        destruct p as [|ch rest]; [eauto|discriminate Hnil].
      * intros [H | [[_ H] | [_ [_ ->]]]]; done.
Qed.

(** C2: when no [load_summarize_chain] can be imported and both
    [llm.invoke] and [llm.predict] raise, the chain is the fallback one and
    [SimpleChain.run] does not raise: it returns the first 5000 characters
    of the rendered prompt, a string of length at most 5000. *)
Theorem run_truncates_when_inference_fails (env : collaborators) (llm : LLM)
    (chain_type : str) (prompt : option PromptTemplate)
    (input_documents : option (list Document)) (c : cache) (e1 e2 : exn) :
  import_chains_summarize env = None ->
  import_chains env = None ->
  invoke llm (final_prompt prompt input_documents) = Raise e1 ->
  predict llm (final_prompt prompt input_documents) = Raise e2 ->
  load_summarize_chain env llm chain_type prompt = Ok (SimpleChain llm prompt)
  /\ exists s : str,
       result_of (SimpleChain_run llm prompt input_documents c) = Ok s
       /\ s = take 5000 (final_prompt prompt input_documents)
       /\ s `prefix_of` final_prompt prompt input_documents
       /\ length s <= 5000.
Proof.
  intros H1 H2 Hi Hp. split.
  - unfold load_summarize_chain. by rewrite H1, H2.
  - exists (take 5000 (final_prompt prompt input_documents)).
    rewrite SimpleChain_run_layers. simpl. rewrite Hi, Hp.
    repeat split.
    + apply prefix_take.
    + apply firstn_le_length.
Qed.

Lemma run_truncates_when_inference_fails_witness :
  load_summarize_chain (env_fallback (Ok [doc_A])) llm_down (lit "stuff")
    (Some (make_prompt 300))
  = Ok (SimpleChain llm_down (Some (make_prompt 300)))
  /\ exists s : str,
       result_of (SimpleChain_run llm_down (Some (make_prompt 300))
                    (Some [doc_A; doc_B]) ∅) = Ok s
       /\ s = take 5000 (final_prompt (Some (make_prompt 300))
                           (Some [doc_A; doc_B]))
       /\ s `prefix_of` final_prompt (Some (make_prompt 300))
                          (Some [doc_A; doc_B])
       /\ length s <= 5000.
Proof.
  apply (run_truncates_when_inference_fails
           (env_fallback (Ok [doc_A])) llm_down (lit "stuff")
           (Some (make_prompt 300)) (Some [doc_A; doc_B]) ∅
           (mkExn AttributeError (lit "invoke"))
           (mkExn ConnectionError (lit "predict")));
    reflexivity.
Defined.

(** ** Rendering *)

Lemma no_brace (s : str) :
  forallb (fun c => negb (N.eqb c 123)) s = true -> 123%N ∉ s.
Proof.
  induction s as [|c s IH]; simpl; intros H.
  - apply not_elem_of_nil.
  - apply andb_true_iff in H as [Hc Hs].
    apply not_elem_of_cons. split; [|auto].
    intros <-. by rewrite N.eqb_refl in Hc.
Qed.

Lemma prompt_head_no_brace (words : Z) : 123%N ∉ prompt_head words.
Proof.
  unfold prompt_head. rewrite !not_elem_of_app.
  split; [by apply no_brace|].
  split; [apply str_of_int_no_brace|].
  repeat split; by apply no_brace.
Qed.

Lemma prompt_tail_no_brace : 123%N ∉ prompt_tail.
Proof. by apply no_brace. Qed.

(** The template is its static head, the placeholder, its static tail. *)
Lemma make_prompt_template (words : Z) :
  template (make_prompt words) =
  prompt_head words ++ lit "{text}" ++ prompt_tail.
Proof.
  unfold make_prompt, prompt_head, prompt_tail. cbn [template].
  by rewrite <- !app_assoc.
Qed.

(** Rendering a template of [make_prompt]: the text takes the place of the
    placeholder and nothing else changes. *)
Lemma render_make_prompt (words : Z) (text : str) :
  str_replace (lit "{text}") text (template (make_prompt words)) =
  prompt_head words ++ text ++ prompt_tail.
Proof.
  rewrite make_prompt_template.
  change (lit "{text}") with (123%N :: lit "text}").
  rewrite str_replace_skip by apply prompt_head_no_brace.
  rewrite str_replace_match.
  by rewrite str_replace_absent by apply prompt_tail_no_brace.
Qed.

Lemma final_prompt_make_prompt (words : Z) (docs : list Document) :
  final_prompt (Some (make_prompt words)) (Some docs) =
  prompt_head words ++ str_join nlnl (map page_content docs) ++ prompt_tail.
Proof. rewrite final_prompt_Some. apply render_make_prompt. Qed.

(** C3: whenever the template has the [{text}] slot, the prompt rendered by
    the fallback chain is the template with the slot replaced by the
    document contents, in sequence order and joined by a blank line; it
    contains that concatenation, and for the documents "A" and "B" it
    contains "A\n\nB". *)
Theorem fallback_rendering_joins_documents (prompt : option PromptTemplate)
    (docs : list Document) :
  str_contains (lit "{text}") (getattr_template prompt) = true ->
  final_prompt prompt (Some docs) =
    str_replace (lit "{text}") (str_join nlnl (map page_content docs))
      (getattr_template prompt)
  /\ substring (str_join nlnl (map page_content docs))
       (final_prompt prompt (Some docs))
  /\ str_join nlnl (map page_content [doc_A; doc_B]) = lit "A" ++ nlnl ++ lit "B"
  /\ substring (lit "A" ++ nlnl ++ lit "B")
       (final_prompt prompt (Some [doc_A; doc_B])).
Proof.
  intros Hslot. apply str_contains_substring in Hslot.
  assert (Hsub : forall ds, substring (str_join nlnl (map page_content ds))
                              (final_prompt prompt (Some ds))).
  { intros ds. rewrite final_prompt_Some.
    revert Hslot. change (lit "{text}") with (123%N :: lit "text}").
    apply str_replace_substring. }
  split; [apply final_prompt_Some|].
  split; [apply Hsub|].
  split; [reflexivity|].
  apply (Hsub [doc_A; doc_B]).
Qed.

Lemma fallback_rendering_joins_documents_witness :
  final_prompt (Some (make_prompt 300)) (Some [doc_A; doc_B]) =
    str_replace (lit "{text}")
      (str_join nlnl (map page_content [doc_A; doc_B]))
      (getattr_template (Some (make_prompt 300)))
  /\ substring (str_join nlnl (map page_content [doc_A; doc_B]))
       (final_prompt (Some (make_prompt 300)) (Some [doc_A; doc_B]))
  /\ str_join nlnl (map page_content [doc_A; doc_B]) = lit "A" ++ nlnl ++ lit "B"
  /\ substring (lit "A" ++ nlnl ++ lit "B")
       (final_prompt (Some (make_prompt 300)) (Some [doc_A; doc_B])).
Proof.
  apply (fallback_rendering_joins_documents (Some (make_prompt 300))
           [doc_A; doc_B]).
  vm_compute. reflexivity.
Defined.

(** C4: for a word count in the range of the slider, [make_prompt] is a
    function of that count alone; the static text of its template contains
    the decimal numeral of the count (digits only, denoting [words]); the
    template holds the placeholder [{text}] exactly once, holds no other
    opening brace, and declares the one input variable [text]; and the
    template of [make_prompt 300] rendered with "X" contains "X" and no
    [{text}]. *)
Theorem make_prompt_properties (words : Z) :
  (50 <= words <= 1000)%Z ->
  (forall words', words' = words -> make_prompt words' = make_prompt words)
  /\ substring (str_of_int words) (template (make_prompt words))
  /\ (forall c, c ∈ str_of_int words -> is_digit c)
  /\ Z.of_int (Z.to_int words) = words
  /\ str_count (lit "{text}") (template (make_prompt words)) = 1
  /\ str_count (lit "{") (template (make_prompt words)) = 1
  /\ input_variables (make_prompt words) = [lit "text"]
  /\ str_contains (lit "X")
       (str_replace (lit "{text}") (lit "X") (template (make_prompt 300)))
     = true
  /\ str_contains (lit "{text}")
       (str_replace (lit "{text}") (lit "X") (template (make_prompt 300)))
     = false.
Proof.
  intros Hrange. split; [by intros ? ->|].
  split.
  { rewrite make_prompt_template. unfold prompt_head.
    apply substring_app_r, substring_app_l, substring_app_r, substring_refl. }
  split; [intros c; apply str_of_int_nonneg_digits; lia|].
  split; [apply DecimalZ.of_to|].
  split.
  { rewrite make_prompt_template.
    change (lit "{text}") with (123%N :: lit "text}").
    rewrite str_count_skip by apply prompt_head_no_brace.
    rewrite str_count_match.
    by rewrite str_count_absent by apply prompt_tail_no_brace. }
  split.
  { rewrite make_prompt_template.
    change (lit "{text}") with (lit "{" ++ lit "text}").
    change (lit "{") with [123%N].
    rewrite str_count_skip by apply prompt_head_no_brace.
    rewrite <- app_assoc, str_count_match.
    rewrite str_count_absent; [done|].
    apply not_elem_of_app. split; [by apply no_brace|].
    apply prompt_tail_no_brace. }
  split; [reflexivity|].
  split; vm_compute; reflexivity.
Qed.

Lemma make_prompt_properties_witness :
  (forall words', words' = 300%Z -> make_prompt words' = make_prompt 300)
  /\ substring (str_of_int 300) (template (make_prompt 300))
  /\ (forall c, c ∈ str_of_int 300 -> is_digit c)
  /\ Z.of_int (Z.to_int 300) = 300%Z
  /\ str_count (lit "{text}") (template (make_prompt 300)) = 1
  /\ str_count (lit "{") (template (make_prompt 300)) = 1
  /\ input_variables (make_prompt 300) = [lit "text"]
  /\ str_contains (lit "X")
       (str_replace (lit "{text}") (lit "X") (template (make_prompt 300)))
     = true
  /\ str_contains (lit "{text}")
       (str_replace (lit "{text}") (lit "X") (template (make_prompt 300)))
     = false.
Proof. apply (make_prompt_properties 300). lia. Defined.

(** C10: [SimpleChain.run] with [None] for the documents does what it does
    with the empty list: the template is rendered with the empty text and
    a string is returned, not an exception; and a prompt without a
    [template] attribute is rendered from the default template "{text}",
    so that the rendered prompt is the joined document text. *)
Theorem run_defaults (llm : LLM) (prompt : option PromptTemplate)
    (docs : list Document) (c : cache) :
  SimpleChain_run llm prompt None c = SimpleChain_run llm prompt (Some []) c
  /\ final_prompt prompt None =
       str_replace (lit "{text}") [] (getattr_template prompt)
  /\ final_prompt prompt (Some []) = final_prompt prompt None
  /\ (exists s, result_of (SimpleChain_run llm prompt None c) = Ok s)
  /\ getattr_template None = lit "{text}"
  /\ final_prompt None (Some docs) = str_join nlnl (map page_content docs)
  /\ final_prompt None None = [].
Proof.
  split; [reflexivity|].
  split; [reflexivity|].
  split; [reflexivity|].
  split.
  { apply SimpleChain_run_total. }
  split; [reflexivity|].
  split; [|reflexivity].
  rewrite final_prompt_Some. cbn [getattr_template].
  rewrite <- (app_nil_r (lit "{text}")) at 2.
  change (lit "{text}") with (123%N :: lit "text}").
  rewrite str_replace_match, str_replace_nil. apply app_nil_r.
Qed.

(** ** The call of the chain and its retry *)

Lemma count_events_app (p : event -> bool) (l1 l2 : list event) :
  count_events p (l1 ++ l2) = count_events p l1 + count_events p l2.
Proof. induction l1 as [|ev l1 IH]; simpl; [done|]. rewrite IH. lia. Qed.

(** A keyword call logs itself once and no positional call. *)
Lemma chain_run_kw_counts (chain : Chain) (docs : list Document) (c : cache) :
  count_events is_run_kw (events_of (chain_run_kw chain docs c)) = 1
  /\ count_events is_run_pos (events_of (chain_run_kw chain docs c)) = 0.
Proof.
  unfold chain_run_kw, bind, emit. destruct chain as [kw pos body|llm prompt].
  - destruct kw; [unfold lift; destruct (body docs)|]; by vm_compute.
  - rewrite SimpleChain_run_layers. cbv zeta.
    destruct (invoke llm _); [by vm_compute|].
    destruct (predict llm _); by vm_compute.
Qed.

Lemma chain_run_pos_counts (chain : Chain) (docs : list Document) (c : cache) :
  count_events is_run_kw (events_of (chain_run_pos chain docs c)) = 0
  /\ count_events is_run_pos (events_of (chain_run_pos chain docs c)) = 1.
Proof.
  unfold chain_run_pos, bind, emit. destruct chain as [kw pos body|llm prompt].
  - destruct pos; [unfold lift; destruct (body docs)|]; by vm_compute.
  - rewrite SimpleChain_run_layers. cbv zeta.
    destruct (invoke llm _); [by vm_compute|].
    destruct (predict llm _); by vm_compute.
Qed.

(** The fallback chain takes the keyword and never raises: no retry. *)
Lemma run_chain_SimpleChain (llm : LLM) (prompt : option PromptTemplate)
    (docs : list Document) (c : cache) :
  run_chain (SimpleChain llm prompt) docs c =
  chain_run_kw (SimpleChain llm prompt) docs c.
Proof.
  unfold run_chain, try_except, chain_run_kw, bind, emit.
  rewrite SimpleChain_run_layers. cbv zeta.
  destruct (invoke llm _); [done|].
  destruct (predict llm _); done.
Qed.

(** C6, as stated, fails: a chain whose [run] takes [input_documents] by
    name, and whose body raises a [TypeError] of its own, is called a
    second time, positionally. *)
Lemma retry_on_TypeError_of_the_body :
  ~ retry_only_on_mismatch chain_body_type_error [doc_A] ∅.
Proof. intros H. specialize (H eq_refl). vm_compute in H. discriminate. Qed.

(** C6, amended: the call [chain.run(input_documents=docs)] is made once.
    If it raises a [TypeError] (the exception with which Python reports a
    signature mismatch, and also any [TypeError] raised inside [run]), the
    call [chain.run(docs)] is made exactly once and its outcome, result or
    exception, is the outcome of the whole; an exception of another class
    propagates without a positional call, and so does a result. *)
Theorem positional_retry_on_TypeError (chain : Chain) (docs : list Document)
    (c : cache) :
  let kw := chain_run_kw chain docs c in
  let out := run_chain chain docs c in
  (if accepts_keyword chain then True
   else kw = (Raise unexpected_keyword, c, [ChainRunKw docs]))
  /\ is_TypeError unexpected_keyword = true
  /\ count_events is_run_kw (events_of out) = 1
  /\ count_events is_run_pos (events_of out) =
       match result_of kw with
       | Raise e => if is_TypeError e then 1 else 0
       | Ok _ => 0
       end
  /\ out =
       match kw with
       | (Ok s, c1, ev1) => (Ok s, c1, ev1)
       | (Raise e, c1, ev1) =>
           if is_TypeError e
           then match chain_run_pos chain docs c1 with
                | (r, c2, ev2) => (r, c2, ev1 ++ ev2)
                end
           else (Raise e, c1, ev1)
       end.
Proof.
  intros kw out.
  split; [by destruct chain as [[] ? ?|]|].
  split; [reflexivity|].
  assert (Hout : out =
       match kw with
       | (Ok s, c1, ev1) => (Ok s, c1, ev1)
       | (Raise e, c1, ev1) =>
           if is_TypeError e
           then match chain_run_pos chain docs c1 with
                | (r, c2, ev2) => (r, c2, ev1 ++ ev2)
                end
           else (Raise e, c1, ev1)
       end).
  { subst out kw. unfold run_chain, try_except.
    destruct (chain_run_kw chain docs c) as [[[s|e] c1] ev1]; [done|].
    destruct (is_TypeError e); [|done].
    by destruct (chain_run_pos chain docs c1) as [[r c2] ev2]. }
  destruct (chain_run_kw_counts chain docs c) as [Hkw1 Hkw0]. fold kw in Hkw1, Hkw0.
  rewrite Hout. clear Hout out.
  destruct kw as [[[s|e] c1] ev1]; cbn [result_of events_of fst snd] in *;
    [done|].
  destruct (is_TypeError e); [|done].
  destruct (chain_run_pos_counts chain docs c1) as [Hpos0 Hpos1].
  destruct (chain_run_pos chain docs c1) as [[r c2] ev2].
  cbn [result_of events_of fst snd] in *.
  rewrite !count_events_app. repeat split; lia.
Qed.

(** ** The content loader *)

Lemma load_url_content_hit (env : collaborators) (url : str) (c : cache)
    (docs : list Document) :
  c !! url = Some docs -> load_url_content env url c = (Ok docs, c, []).
Proof. intros H. unfold load_url_content, st_cache_data. by rewrite H. Qed.

Lemma load_url_content_miss (env : collaborators) (url : str) (c : cache) :
  c !! url = None ->
  load_url_content env url c =
  match url_loader_load env [url] false user_agent with
  | Ok docs =>
      (Ok docs, <[url := docs]> c, [UrlLoaderLoad [url] false user_agent])
  | Raise e => (Raise e, c, [UrlLoaderLoad [url] false user_agent])
  end.
Proof.
  intros H. unfold load_url_content, st_cache_data. rewrite H.
  unfold load_url_content_body, bind, emit, lift. simpl.
  by destruct (url_loader_load env _ _ _).
Qed.

(** The loader logs at most its one fetch, and nothing else. *)
Lemma load_url_content_events (env : collaborators) (url : str) (c : cache) :
  events_of (load_url_content env url c) = []
  \/ events_of (load_url_content env url c) =
       [UrlLoaderLoad [url] false user_agent].
Proof.
  destruct (c !! url) as [docs|] eqn:E.
  - left. by rewrite (load_url_content_hit _ _ _ docs).
  - right. rewrite load_url_content_miss by done.
    by destruct (url_loader_load env _ _ _).
Qed.

(** A fetch that raises leaves nothing in the cache: the next call with
    the same URL fetches again. *)
Lemma load_url_content_failure_not_cached (env : collaborators) (url : str)
    (c : cache) (e : exn) :
  c !! url = None ->
  url_loader_load env [url] false user_agent = Raise e ->
  let first := load_url_content env url c in
  let second := load_url_content env url (cache_of first) in
  result_of first = Raise e
  /\ cache_of first = c
  /\ count_events is_fetch (events_of first ++ events_of second) = 2.
Proof.
  intros Hc He first second. subst second first.
  rewrite (load_url_content_miss env url c Hc), He. cbn [cache_of fst snd].
  rewrite (load_url_content_miss env url c Hc), He. done.
Qed.

(** C8: in a session whose cache has no entry for [url], and with a fetch
    that yields documents, two calls of [load_url_content url] make
    exactly one network fetch: the first call fetches, the second is a
    cache hit that logs no call at all, returns what the first returned and
    leaves the cache as it was. *)
Theorem load_twice_fetches_once (env : collaborators) (url : str) (c : cache)
    (docs : list Document) :
  c !! url = None ->
  url_loader_load env [url] false user_agent = Ok docs ->
  let first := load_url_content env url c in
  let second := load_url_content env url (cache_of first) in
  result_of first = Ok docs
  /\ count_events is_fetch (events_of first) = 1
  /\ cache_of first !! url = Some docs
  /\ events_of second = []
  /\ result_of second = result_of first
  /\ cache_of second = cache_of first
  /\ count_events is_fetch (events_of first ++ events_of second) = 1.
Proof.
  intros Hc Hload first second. subst second first.
  rewrite (load_url_content_miss env url c Hc), Hload.
  cbn [cache_of result_of events_of fst snd].
  assert (Hhit : (<[url := docs]> c : cache) !! url = Some docs)
    by apply lookup_insert_eq.
  rewrite (load_url_content_hit env url _ docs Hhit).
  by repeat split.
Qed.

Lemma load_twice_fetches_once_witness :
  let env := env_fallback (Ok [doc_A; doc_B]) in
  let url := lit "https://example.com/article" in
  let first := load_url_content env url ∅ in
  let second := load_url_content env url (cache_of first) in
  result_of first = Ok [doc_A; doc_B]
  /\ count_events is_fetch (events_of first) = 1
  /\ cache_of first !! url = Some [doc_A; doc_B]
  /\ events_of second = []
  /\ result_of second = result_of first
  /\ cache_of second = cache_of first
  /\ count_events is_fetch (events_of first ++ events_of second) = 1.
Proof.
  apply (load_twice_fetches_once (env_fallback (Ok [doc_A; doc_B]))
           (lit "https://example.com/article") ∅ [doc_A; doc_B]);
    reflexivity.
Defined.

(** ** Main logic *)

Arguments lit : simpl never.

Lemma load_url_content_no_pipeline (env : collaborators) (url : str)
    (c : cache) :
  count_events is_pipeline (events_of (load_url_content env url c)) = 0.
Proof.
  by destruct (load_url_content_events env url c) as [-> | ->].
Qed.

Lemma events_bind_emit {B} (ev : event) (k : unit -> M B) (c : cache) :
  events_of (bind (emit ev) k c) = ev :: events_of (k tt c).
Proof. unfold bind, emit. by destruct (k tt c) as [[r c1] evs]. Qed.

Lemma events_bind_ret {A B} (a : A) (k : A -> M B) (c : cache) :
  events_of (bind (ret a) k c) = events_of (k a c).
Proof. unfold bind, ret. by destruct (k a c) as [[r c1] evs]. Qed.

(** The documents branch starts the pipeline whatever happens next. *)
Lemma summarize_and_show_pipeline (env : collaborators) (i : inputs)
    (docs : list Document) (c : cache) :
  1 <= count_events is_pipeline (events_of (summarize_and_show env i docs c)).
Proof.
  unfold summarize_and_show.
  destruct (show_extracted i);
    repeat (rewrite events_bind_emit || rewrite events_bind_ret);
    cbn [count_events is_pipeline]; lia.
Qed.

(** C9: a key made of whitespace only (the empty key included) stops the
    submit handler at its first test: the only thing it does is report
    that the key is required; the validator, the loader, the model client
    and the rest of the pipeline are not called, and the cache is
    untouched. *)
Theorem blank_key_is_absent (env : collaborators) (i : inputs) (c : cache) :
  submit i = true ->
  forallb char_isspace (groq_api_key i) = true ->
  main_logic env i c = (Ok tt, c, [StError (lit "Groq API key is required.")])
  /\ count_events is_validation (events_of (main_logic env i c)) = 0
  /\ count_events is_fetch (events_of (main_logic env i c)) = 0
  /\ count_events is_inference (events_of (main_logic env i c)) = 0
  /\ count_events is_pipeline (events_of (main_logic env i c)) = 0.
Proof.
  intros Hsubmit Hblank.
  assert (H : main_logic env i c =
              (Ok tt, c, [StError (lit "Groq API key is required.")])).
  { unfold main_logic. rewrite Hsubmit, (str_strip_spaces _ Hblank). done. }
  rewrite H. by repeat split.
Qed.

Lemma blank_key_is_absent_witness :
  let env := env_fallback (Ok [doc_A]) in
  let i := sample_inputs (lit "   ") in
  main_logic env i ∅ = (Ok tt, ∅, [StError (lit "Groq API key is required.")])
  /\ count_events is_validation (events_of (main_logic env i ∅)) = 0
  /\ count_events is_fetch (events_of (main_logic env i ∅)) = 0
  /\ count_events is_inference (events_of (main_logic env i ∅)) = 0
  /\ count_events is_pipeline (events_of (main_logic env i ∅)) = 0.
Proof.
  apply (blank_key_is_absent (env_fallback (Ok [doc_A]))
           (sample_inputs (lit "   ")) ∅); reflexivity.
Defined.



(** A string the validator refuses stops the handler before any fetch
    (specification, section 4.1). *)
Lemma invalid_url_is_rejected (env : collaborators) (i : inputs) (c : cache) :
  submit i = true ->
  str_truthy (str_strip (groq_api_key i)) = true ->
  validators_url env (url i) = false ->
  main_logic env i c =
    (Ok tt, c,
     [ValidatorsUrl (url i);
      StError (lit "Enter a valid URL including http:// or https://")]).
Proof.
  intros Hsubmit Hkey Hurl. unfold main_logic.
  by rewrite Hsubmit, Hkey, Hurl.
Qed.

(** Without a click on the button the handler does nothing. *)
Lemma no_submit_no_effect (env : collaborators) (i : inputs) (c : cache) :
  submit i = false -> main_logic env i c = (Ok tt, c, []).
Proof. intros H. unfold main_logic. by rewrite H. Qed.

(** ** Invariants of the event log *)

Section log_invariant.
Variable P : event -> Prop.

Lemma log_ret {A : Type} (a : A) (c : cache) : Forall P (events_of (ret a c)).
Proof. constructor. Qed.

Lemma log_lift {A : Type} (r : result A) (c : cache) : Forall P (events_of (lift r c)).
Proof. constructor. Qed.

Lemma log_raise {A : Type} (e : exn) (c : cache) :
  Forall P (events_of (raise (A := A) e c)).
Proof. constructor. Qed.

Lemma log_emit (ev : event) (c : cache) :
  P ev -> Forall P (events_of (emit ev c)).
Proof. intros H. by repeat constructor. Qed.

Lemma log_bind {A B : Type} (m : M A) (k : A -> M B) (c : cache) :
  Forall P (events_of (m c)) ->
  (forall a c1, Forall P (events_of (k a c1))) ->
  Forall P (events_of (bind m k c)).
Proof.
  intros Hm Hk. unfold bind.
  destruct (m c) as [[[a|e] c1] ev1]; [|done].
  specialize (Hk a c1). destruct (k a c1) as [[r c2] ev2].
  apply Forall_app. by split.
Qed.

Lemma log_try_except {A : Type} (body : M A) (catches : exn -> bool)
    (handler : exn -> M A) (c : cache) :
  Forall P (events_of (body c)) ->
  (forall e c1, Forall P (events_of (handler e c1))) ->
  Forall P (events_of (try_except body catches handler c)).
Proof.
  intros Hb Hh. unfold try_except.
  destruct (body c) as [[[a|e] c1] ev1]; [done|].
  destruct (catches e); [|done].
  specialize (Hh e c1). destruct (handler e c1) as [[r c2] ev2].
  apply Forall_app. by split.
Qed.
Lemma log_st_write (body : str) (c : cache) :
  P (StWrite body) -> Forall P (events_of (st_write body c)).
Proof.
  intros H. unfold st_write.
  destruct (utf8_encodable body); [by apply log_emit|apply log_raise].
Qed.
End log_invariant.

Ltac log_step :=
  first
    [ apply log_ret | apply log_lift | apply log_raise
    | apply log_emit | apply log_st_write
    | apply log_bind; [|intros ? ?]
    | apply log_try_except; [|intros ? ?] ].

Lemma SimpleChain_run_log (P : event -> Prop) (llm : LLM)
    (prompt : option PromptTemplate)
    (input_documents : option (list Document)) (c : cache) :
  (forall p, P (LlmInvoke p)) -> (forall p, P (LlmPredict p)) ->
  Forall P (events_of (SimpleChain_run llm prompt input_documents c)).
Proof.
  intros Hi Hp. unfold SimpleChain_run. repeat log_step; auto.
Qed.

(** X21: the handler never calls [chain.run] on an empty document list, by
    name or positionally (section 8 of the specification, third
    property). *)
Lemma pipeline_gets_documents (env : collaborators) (i : inputs) (c : cache) :
  Forall run_gets_documents (events_of (main_logic env i c)).
Proof.
  unfold main_logic.
  destruct (negb (submit i)); [apply log_ret|].
  destruct (negb (str_truthy _)); [by apply log_emit|].
  apply log_bind; [by apply log_emit|intros _ c1].
  destruct (negb (validators_url _ _)); [by apply log_emit|].
  apply log_try_except.
  2:{ intros e c2. apply log_bind; [by apply log_emit|intros _ c3].
      destruct (dev_mode i); [by apply log_emit|apply log_ret]. }
  apply log_bind; [by apply log_emit|intros _ c2].
  apply log_bind.
  { destruct (load_url_content_events env (url i) c2) as [-> | ->];
      by repeat constructor. }
  intros [|d docs] c3; [by apply log_emit|].
  unfold summarize_and_show.
  apply log_bind;
    [destruct (show_extracted i); [by apply log_emit|apply log_ret]|].
  intros _ c4.
  do 3 (apply log_bind; [by apply log_emit|intros _ ?]).
  apply log_bind; [apply log_lift|intros chain cA].
  apply log_bind.
  2:{ intros summary cB. repeat log_step; done. }
  unfold run_chain.
  assert (Hrun : forall llm prompt c',
             Forall run_gets_documents
               (events_of (SimpleChain_run llm prompt (Some (d :: docs)) c')))
    by (intros; by apply SimpleChain_run_log).
  apply log_try_except; [|intros e cB];
    unfold chain_run_kw, chain_run_pos;
    (apply log_bind; [by apply log_emit|intros _ ?]);
    destruct chain as [kw pos body|llm prompt]; try apply Hrun;
    match goal with |- context [if ?b then _ else _] => destruct b end;
    log_step.
Qed.

(** The end-to-end scenario of the specification: one document, a valid
    key, 300 words, strategy "stuff", a client that answers.  The summary
    is written, one document is recorded, and the download carries the
    summary itself. *)
Example end_to_end :
  let i := sample_inputs (lit "gsk_test") in
  let env := env_answering (Ok [mkDocument (lit "Lorem ipsum...")]) in
  let summary := lit "A short summary." in
  result_of (main_logic env i ∅) = Ok tt
  /\ (forall ev, ev ∈ events_of (main_logic env i ∅) ->
        match ev with
        | StError _ | StException _ => False
        | StWrite body => body = summary
        | StSessionUpdate s => length (ss_docs s) = 1 /\ ss_summary s = summary
        | StDownloadButton _ data file_name _ =>
            data = summary /\ file_name = lit "summary.txt"
        | _ => True
        end)
  /\ StWrite summary ∈ events_of (main_logic env i ∅).
Proof.
  vm_compute events_of. vm_compute result_of.
  split; [reflexivity|]. split.
  - intros ev Hev. repeat (apply elem_of_cons in Hev as [->|Hev]; [done|]).
    by apply elem_of_nil in Hev.
  - repeat (first [apply list_elem_of_here | apply list_elem_of_further]).
Qed.

(* ===================================================================== *)
(** * Part III.  Further properties of the handler and of the script      *)
(* ===================================================================== *)

(** ** A normal form of [main_logic] *)

(** [main_logic] by cases on the answers of its collaborators. *)
Lemma main_logic_cases (env : collaborators) (i : inputs) (c : cache) :
  main_logic env i c =
  if negb (submit i) then (Ok tt, c, [])
  else if negb (str_truthy (str_strip (groq_api_key i)))
  then (Ok tt, c, [StError (lit "Groq API key is required.")])
  else if negb (validators_url env (url i))
  then (Ok tt, c,
        [ValidatorsUrl (url i);
         StError (lit "Enter a valid URL including http:// or https://")])
  else
    match load_url_content env (url i) c with
    | (Raise e, c1, ev1) =>
        (Ok tt, c1, before_load i ++ ev1 ++ error_report i e)
    | (Ok [], c1, ev1) =>
        (Ok tt, c1,
         before_load i ++ ev1 ++ [StError (lit "No content found.")])
    | (Ok (d :: ds), c1, ev1) =>
        let docs := d :: ds in
        let llm := ChatGroq env model_name (groq_api_key i) in
        let prompt := make_prompt (summary_words i) in
        match load_summarize_chain env llm (chain_type i) (Some prompt) with
        | Raise e =>
            (Ok tt, c1,
             before_load i ++ ev1 ++ before_run i docs ++ error_report i e)
        | Ok chain =>
            match run_chain chain docs c1 with
            | (Raise e, c2, ev2) =>
                (Ok tt, c2,
                 before_load i ++ ev1 ++ before_run i docs ++ ev2
                   ++ error_report i e)
            | (Ok summary, c2, ev2) =>
                (Ok tt, c2,
                 before_load i ++ ev1 ++ before_run i docs ++ ev2
                   ++ (if utf8_encodable summary
                       then success_report i docs summary
                       else unwritable_report i))
            end
        end
    end.
Proof.
  unfold main_logic.
  destruct (negb (submit i)); [done|].
  destruct (negb (str_truthy _)); [done|].
  destruct (negb (validators_url _ _)); [done|].
  unfold try_except, bind, emit, before_load, unwritable_report,
    error_report, success_report.
  cbn [app].
  destruct (load_url_content env (url i) c) as [[[docs|e] c1] ev1].
  2:{ cbn. destruct (dev_mode i); cbn; by rewrite ?app_nil_r. }
  destruct docs as [|d ds]; [reflexivity|].
  unfold summarize_and_show, st_write, encode_utf8, before_run, bind, emit,
    ret, lift, raise.
  fold (preview (d :: ds)).
  destruct (show_extracted i);
    cbn -[preview load_summarize_chain run_chain utf8_encodable utf8_bytes];
    (destruct (load_summarize_chain env _ _ _) as [chain|e];
     [destruct (run_chain chain (d :: ds) c1) as [[[summary|e] c2] ev2];
      [destruct (utf8_encodable summary)|]|]);
    destruct (dev_mode i); cbn -[preview utf8_bytes];
    repeat (rewrite <- app_assoc; cbn [app]);
    by rewrite ?app_nil_r.
Qed.

(** ** Sub-logs *)

Lemma count_events_none (p : event -> bool) (evs : list event) :
  Forall (fun ev => p ev = false) evs -> count_events p evs = 0.
Proof. induction 1 as [|ev evs Hev _ IH]; simpl; [done|]. by rewrite Hev. Qed.

Lemma load_url_content_log (P : event -> Prop) (env : collaborators)
    (url : str) (c : cache) :
  (forall urls v h, P (UrlLoaderLoad urls v h)) ->
  Forall P (events_of (load_url_content env url c)).
Proof.
  intros HP.
  destruct (load_url_content_events env url c) as [-> | ->];
    by repeat constructor.
Qed.

Lemma run_chain_log (P : event -> Prop) (chain : Chain)
    (docs : list Document) (c : cache) :
  P (ChainRunKw docs) -> P (ChainRunPos docs) ->
  (forall p, P (LlmInvoke p)) -> (forall p, P (LlmPredict p)) ->
  Forall P (events_of (run_chain chain docs c)).
Proof.
  intros Hkw Hpos Hi Hp. unfold run_chain.
  assert (Hrun : forall llm prompt c',
             Forall P (events_of (SimpleChain_run llm prompt (Some docs) c')))
    by (intros; by apply SimpleChain_run_log).
  apply log_try_except; [|intros e c1];
    unfold chain_run_kw, chain_run_pos;
    (apply log_bind; [by apply log_emit|intros _ ?]);
    destruct chain as [kw pos body|llm prompt]; try apply Hrun;
    match goal with |- context [if ?b then _ else _] => destruct b end;
    log_step.
Qed.

Lemma load_count (p : event -> bool) (env : collaborators) (url : str)
    (c c1 : cache) (r : result (list Document)) (ev1 : list event) :
  load_url_content env url c = (r, c1, ev1) ->
  (forall urls v h, p (UrlLoaderLoad urls v h) = false) ->
  count_events p ev1 = 0.
Proof.
  intros E Hp. apply count_events_none.
  pose proof (load_url_content_log (fun ev => p ev = false) env url c Hp) as H.
  by rewrite E in H.
Qed.

Lemma run_chain_count (p : event -> bool) (chain : Chain)
    (docs : list Document) (c c2 : cache) (r : result str)
    (ev2 : list event) :
  run_chain chain docs c = (r, c2, ev2) ->
  p (ChainRunKw docs) = false -> p (ChainRunPos docs) = false ->
  (forall q, p (LlmInvoke q) = false) -> (forall q, p (LlmPredict q) = false) ->
  count_events p ev2 = 0.
Proof.
  intros E Hkw Hpos Hi Hp. apply count_events_none.
  pose proof (run_chain_log (fun ev => p ev = false) chain docs c
                Hkw Hpos Hi Hp) as H.
  by rewrite E in H.
Qed.

(** Neither call of [chain.run] touches the cache. *)
Lemma run_chain_cache (chain : Chain) (docs : list Document) (c : cache) :
  cache_of (run_chain chain docs c) = c.
Proof.
  assert (Hkw : forall c', cache_of (chain_run_kw chain docs c') = c').
  { intros c'. unfold chain_run_kw, bind, emit, lift, raise.
    destruct chain as [[] pos body|llm prompt]; cbn [cache_of fst snd].
    - by destruct (body docs).
    - done.
    - rewrite SimpleChain_run_layers. cbv zeta.
      destruct (invoke llm _); [done|]. by destruct (predict llm _). }
  assert (Hpos : forall c', cache_of (chain_run_pos chain docs c') = c').
  { intros c'. unfold chain_run_pos, bind, emit, lift, raise.
    destruct chain as [kw [] body|llm prompt]; cbn [cache_of fst snd].
    - by destruct (body docs).
    - done.
    - rewrite SimpleChain_run_layers. cbv zeta.
      destruct (invoke llm _); [done|]. by destruct (predict llm _). }
  unfold run_chain, try_except. specialize (Hkw c).
  destruct (chain_run_kw chain docs c) as [[[s|e] c1] ev1];
    cbn [cache_of fst snd] in *; [done|].
  destruct (is_TypeError e); [|done].
  specialize (Hpos c1).
  destruct (chain_run_pos chain docs c1) as [[r c2] ev2].
  cbn [cache_of fst snd] in *. congruence.
Qed.

(** Case analysis of [main_logic env i c], with the equations of the
    collaborators' answers kept. *)
Ltac handler_cases env i c :=
  rewrite !(main_logic_cases env i c);
  destruct (negb (submit i)) eqn:Esubmit;
  [|destruct (negb (str_truthy (str_strip (groq_api_key i)))) eqn:Ekey;
    [|destruct (negb (validators_url env (url i))) eqn:Evalid;
      [|destruct (load_url_content env (url i) c)
          as [[[[|d ds]|eload] c1] ev1] eqn:Eload;
        [| cbv zeta;
           destruct (load_summarize_chain env _ _ _)
             as [chain|efactory] eqn:Efactory;
           [destruct (run_chain chain (d :: ds) c1)
              as [[[summary|erun] c2] ev2] eqn:Erun;
            [destruct (utf8_encodable summary) eqn:Eenc|]|]
         |]]]].

Ltac count_reports :=
  unfold before_load, before_run, unwritable_report, error_report,
    success_report;
  repeat match goal with
         | |- context [if ?b then _ else _] => destruct b
         end;
  cbn [app count_events is_error is_success is_write is_session_update
         is_download is_preview is_fetch is_pipeline is_validation
         is_inference is_run_kw is_run_pos Nat.add].

(** ** Outcomes of a run *)




Lemma written_app (l1 l2 : list event) :
  written (l1 ++ l2) = written l1 ++ written l2.
Proof.
  induction l1 as [|ev l1 IH]; [done|].
  destruct ev; cbn [app written]; by rewrite ?IH.
Qed.

Lemma written_none (evs : list event) :
  Forall (fun ev => is_write ev = false) evs -> written evs = [].
Proof. induction 1 as [|[] evs Hev _ IH]; cbn; done. Qed.

Lemma load_written (env : collaborators) (url : str) (c c1 : cache)
    (r : result (list Document)) (ev1 : list event) :
  load_url_content env url c = (r, c1, ev1) -> written ev1 = [].
Proof.
  intros E. apply written_none.
  pose proof (load_url_content_log (fun ev => is_write ev = false)
                env url c (fun _ _ _ => eq_refl)) as H.
  by rewrite E in H.
Qed.

Lemma run_chain_written (chain : Chain) (docs : list Document) (c c2 : cache)
    (r : result str) (ev2 : list event) :
  run_chain chain docs c = (r, c2, ev2) -> written ev2 = [].
Proof.
  intros E. apply written_none.
  pose proof (run_chain_log (fun ev => is_write ev = false) chain docs c
                eq_refl eq_refl (fun _ => eq_refl) (fun _ => eq_refl)) as H.
  by rewrite E in H.
Qed.

Lemma written_before_run (i : inputs) (docs : list Document) :
  written (before_run i docs) = [].
Proof. unfold before_run. by destruct (show_extracted i). Qed.




(** The fallback chain under [run_chain]: one keyword call, no retry, the
    answer of the first layer that does not raise. *)
Lemma run_chain_fallback (llm : LLM) (prompt : option PromptTemplate)
    (docs : list Document) (c : cache) :
  let p := final_prompt prompt (Some docs) in
  run_chain (SimpleChain llm prompt) docs c =
  (Ok (fallback_answer llm p), c,
   ChainRunKw docs :: LlmInvoke p
     :: match invoke llm p with Ok _ => [] | Raise _ => [LlmPredict p] end).
Proof.
  intros p. rewrite run_chain_SimpleChain.
  unfold chain_run_kw, bind, emit, fallback_answer.
  rewrite SimpleChain_run_layers. cbv zeta. fold p.
  destruct (invoke llm p); [done|]. by destruct (predict llm p).
Qed.



(** ** What the handler calls, and when *)

(** X6: whatever happens, the handler validates and fetches only the URL
    of the form, fetches with certificate verification switched off and
    the fixed User-Agent header, builds the client with the fixed model
    name and the key exactly as typed (not stripped), and asks for the
    selected chain type. *)
Theorem collaborators_called_with_inputs (env : collaborators) (i : inputs)
    (c : cache) :
  Forall (called_with i) (events_of (main_logic env i c)).
Proof.
  assert (Hload : Forall (called_with i)
                    (events_of (load_url_content env (url i) c))).
  { destruct (load_url_content_events env (url i) c) as [-> | ->];
      by repeat constructor. }
  assert (Hbefore : forall docs, Forall (called_with i) (before_run i docs)).
  { intros docs. unfold before_run.
    destruct (show_extracted i); by repeat constructor. }
  assert (Herr : forall e, Forall (called_with i) (error_report i e)).
  { intros e. unfold error_report.
    destruct (dev_mode i); by repeat constructor. }
  handler_cases env i c; cbn [events_of snd] in *;
    unfold unwritable_report;
    rewrite ?Forall_app; repeat split;
    try (by repeat constructor); try apply Hbefore; try apply Herr;
    try done.
  all: pose proof (run_chain_log (called_with i) chain (d :: ds) c1
                     I I (fun _ => I) (fun _ => I)) as H;
    by rewrite Erun in H.
Qed.

Lemma str_lstrip_nil (s : str) :
  str_lstrip s = [] -> forallb char_isspace s = true.
Proof.
  induction s as [|ch s IH]; simpl; [done|].
  destruct (char_isspace ch); [auto|done].
Qed.

Lemma str_lstrip_head (s t : str) (ch : N) :
  str_lstrip s = ch :: t -> char_isspace ch = false.
Proof.
  induction s as [|a s IH]; simpl; [done|].
  destruct (char_isspace a) eqn:E; [auto|].
  intros [= <- _]. done.
Qed.

Lemma forallb_rev (p : N -> bool) (s : str) :
  forallb p (rev s) = forallb p s.
Proof.
  induction s as [|a s IH]; simpl; [done|].
  rewrite forallb_app, IH. simpl. rewrite andb_true_r. apply andb_comm.
Qed.

(** [s.strip()] is empty exactly for the strings of whitespace. *)
Lemma str_strip_nil_iff (s : str) :
  str_strip s = [] <-> forallb char_isspace s = true.
Proof.
  split; [|apply str_strip_spaces].
  unfold str_strip, str_rstrip. intros H.
  assert (H1 : str_lstrip (rev (str_lstrip s)) = []).
  { destruct (str_lstrip (rev (str_lstrip s))) as [|a l]; [done|].
    simpl in H. by destruct (rev l). }
  apply str_lstrip_nil in H1. rewrite forallb_rev in H1.
  destruct (str_lstrip s) as [|a l] eqn:E; [by apply str_lstrip_nil|].
  apply str_lstrip_head in E. simpl in H1. by rewrite E in H1.
Qed.

(** X7: a key that holds at least one character that is not whitespace
    passes the key test, with or without whitespace around it: the next
    thing the handler does is call the URL validator. *)
Theorem key_with_text_passes (env : collaborators) (i : inputs) (c : cache) :
  submit i = true ->
  forallb char_isspace (groq_api_key i) = false ->
  exists rest,
    events_of (main_logic env i c) = ValidatorsUrl (url i) :: rest.
Proof.
  intros Hsubmit Hkey.
  assert (Hgate : str_truthy (str_strip (groq_api_key i)) = true).
  { destruct (str_strip (groq_api_key i)) eqn:E; [|done].
    apply str_strip_nil_iff in E. congruence. }
  handler_cases env i c; cbn [events_of snd];
    rewrite ?Hsubmit, ?Hgate in *; try discriminate;
    unfold before_load; cbn [app]; by eexists.
Qed.

Lemma key_with_text_passes_witness :
  let i := sample_inputs (lit "  gsk_test ") in
  exists rest,
    events_of (main_logic (env_fallback (Ok [])) i ∅)
    = ValidatorsUrl (url i) :: rest.
Proof.
  apply (key_with_text_passes (env_fallback (Ok []))
           (sample_inputs (lit "  gsk_test ")) ∅); reflexivity.
Defined.

(** X8: a run that fetches, or that starts any step of the pipeline, was
    submitted with a key that is not blank and a URL that the validator
    accepted. *)
Theorem effects_only_past_the_gates (env : collaborators) (i : inputs)
    (c : cache) :
  0 < count_events is_fetch (events_of (main_logic env i c))
      + count_events is_pipeline (events_of (main_logic env i c)) ->
  submit i = true
  /\ forallb char_isspace (groq_api_key i) = false
  /\ validators_url env (url i) = true.
Proof.
  assert (Hkey : negb (str_truthy (str_strip (groq_api_key i))) = false ->
                 forallb char_isspace (groq_api_key i) = false).
  { intros H. destruct (forallb _ _) eqn:E; [|done].
    apply str_strip_nil_iff in E. by rewrite E in H. }
  handler_cases env i c; cbn [events_of snd count_events is_fetch
                                is_pipeline Nat.add];
    intros Hpos; try lia;
    (split; [by destruct (submit i)|];
     split; [by apply Hkey|]; by destruct (validators_url env (url i))).
Qed.

Lemma effects_only_past_the_gates_witness :
  let env := env_fallback (Ok []) in
  let i := sample_inputs (lit "gsk_test") in
  submit i = true
  /\ forallb char_isspace (groq_api_key i) = false
  /\ validators_url env (url i) = true.
Proof.
  apply (effects_only_past_the_gates (env_fallback (Ok []))
           (sample_inputs (lit "gsk_test")) ∅).
  vm_compute. lia.
Defined.

(** ** The cache across runs *)

Lemma load_cache (env : collaborators) (url : str) (c c1 : cache)
    (r : result (list Document)) (ev1 : list event) :
  load_url_content env url c = (r, c1, ev1) ->
  c1 = c
  \/ (c !! url = None
      /\ exists docs, url_loader_load env [url] false user_agent = Ok docs
                      /\ c1 = <[url := docs]> c).
Proof.
  destruct (c !! url) as [hit|] eqn:E.
  - rewrite (load_url_content_hit env url c hit E). intros [= _ <- _]. by left.
  - rewrite (load_url_content_miss env url c E).
    destruct (url_loader_load env [url] false user_agent) as [docs|e] eqn:El.
    + intros [= _ <- _]. right. split; [done|]. by exists docs.
    + intros [= _ <- _]. by left.
Qed.

Lemma run_chain_cache_eq (chain : Chain) (docs : list Document)
    (c c2 : cache) (r : result str) (ev2 : list event) :
  run_chain chain docs c = (r, c2, ev2) -> c2 = c.
Proof.
  intros E. pose proof (run_chain_cache chain docs c) as H.
  by rewrite E in H.
Qed.

Lemma cache_grows_by_the_url_helper (env : collaborators) (i : inputs)
    (c : cache) :
  cache_of (main_logic env i c) = c
  \/ (c !! url i = None
      /\ exists docs,
           url_loader_load env [url i] false user_agent = Ok docs
           /\ cache_of (main_logic env i c) = <[url i := docs]> c).
Proof.
  handler_cases env i c; cbn [cache_of fst snd]; try (by left);
    try (apply run_chain_cache_eq in Erun as ->);
    by apply (load_cache env (url i) c _ _ _ Eload).
Qed.

(** X9: a run changes the cache in one way at most: when the URL of the
    form was not cached and its fetch returned documents, these are stored
    under that URL.  No entry is ever removed or replaced. *)
Theorem cache_grows_by_the_fetched_url (env : collaborators) (i : inputs)
    (c : cache) :
  cache_of (main_logic env i c) = c
  \/ (c !! url i = None
      /\ exists docs,
           url_loader_load env [url i] false user_agent = Ok docs
           /\ cache_of (main_logic env i c) = <[url i := docs]> c).
Proof.
  handler_cases env i c; cbn [cache_of fst snd]; try (by left).
  all: try (apply run_chain_cache_eq in Erun as ->).
  all: destruct (load_cache env (url i) c _ _ _ Eload)
         as [-> | (Hmiss & docs & Hfetch & ->)];
    [by left | right; split; [done|]; by exists docs].
Qed.

Lemma main_logic_no_fetch_on_hit (env : collaborators) (i : inputs)
    (c : cache) (docs : list Document) :
  c !! url i = Some docs ->
  count_events is_fetch (events_of (main_logic env i c)) = 0.
Proof.
  intros Hhit. pose proof (load_url_content_hit env (url i) c docs Hhit) as Hl.
  handler_cases env i c; cbn [events_of snd]; try done;
    rewrite Hl in Eload; simplify_eq;
    rewrite ?count_events_app;
    rewrite ?(run_chain_count is_fetch _ _ _ _ _ _ Erun) by done;
    count_reports; done.
Qed.

(** X10: once a run has fetched the URL of the form, submitting the same
    URL again in the same session makes no network fetch, whatever the
    other inputs are. *)
Theorem resubmit_makes_no_fetch (env : collaborators) (i j : inputs)
    (c : cache) (docs : list Document) :
  submit i = true ->
  str_truthy (str_strip (groq_api_key i)) = true ->
  validators_url env (url i) = true ->
  url_loader_load env [url i] false user_agent = Ok docs ->
  url j = url i ->
  count_events is_fetch
    (events_of (main_logic env j (cache_of (main_logic env i c)))) = 0.
Proof.
  intros Hsubmit Hkey Hvalid Hfetch Hurl.
  assert (Hin : is_Some (cache_of (main_logic env i c) !! url i)).
  { destruct (c !! url i) as [hit|] eqn:E.
    - destruct (cache_grows_by_the_url_helper env i c) as [-> | [H _]];
        [by rewrite E|congruence].
    - rewrite main_logic_cases, Hsubmit, Hkey, Hvalid. cbn [negb].
      rewrite (load_url_content_miss env (url i) c E), Hfetch.
      assert (Hl : (<[url i := docs]> c : cache) !! url i = Some docs)
        by apply lookup_insert_eq.
      destruct docs as [|d ds]; [by cbn [cache_of fst snd]; rewrite Hl|].
      cbv zeta.
      destruct (load_summarize_chain env _ _ _) as [chain|e];
        [|by cbn [cache_of fst snd]; rewrite Hl].
      destruct (run_chain chain (d :: ds) _) as [[[s|e] c2] ev2] eqn:Erun;
        apply run_chain_cache_eq in Erun as ->;
        by cbn [cache_of fst snd]; rewrite Hl. }
  destruct Hin as [hit Hhit]. rewrite <- Hurl in Hhit.
  by apply (main_logic_no_fetch_on_hit env j _ hit).
Qed.

Lemma resubmit_makes_no_fetch_witness :
  let env := env_answering (Ok [doc_A]) in
  let i := sample_inputs (lit "gsk_test") in
  let j := mkInputs (lit "other key") 50 true (lit "refine") true (url i) true in
  count_events is_fetch
    (events_of (main_logic env j (cache_of (main_logic env i ∅)))) = 0.
Proof.
  apply (resubmit_makes_no_fetch (env_answering (Ok [doc_A]))
           (sample_inputs (lit "gsk_test")) _ ∅ [doc_A]); reflexivity.
Defined.

(** ** The preview and the chain type *)

Lemma without_app (p : event -> bool) (l1 l2 : list event) :
  without p (l1 ++ l2) = without p l1 ++ without p l2.
Proof.
  induction l1 as [|ev l1 IH]; [done|].
  cbn [app without]. destruct (p ev); by rewrite IH.
Qed.

Lemma without_none (p : event -> bool) (evs : list event) :
  Forall (fun ev => p ev = false) evs -> without p evs = evs.
Proof.
  induction 1 as [|ev evs Hev _ IH]; [done|].
  cbn [without]. by rewrite Hev, IH.
Qed.

Lemma load_without (p : event -> bool) (env : collaborators) (url : str)
    (c c1 : cache) (r : result (list Document)) (ev1 : list event) :
  load_url_content env url c = (r, c1, ev1) ->
  (forall urls v h, p (UrlLoaderLoad urls v h) = false) ->
  without p ev1 = ev1.
Proof.
  intros E Hp. apply without_none.
  pose proof (load_url_content_log (fun ev => p ev = false) env url c Hp) as H.
  by rewrite E in H.
Qed.

Lemma run_chain_without (p : event -> bool) (chain : Chain)
    (docs : list Document) (c c2 : cache) (r : result str)
    (ev2 : list event) :
  run_chain chain docs c = (r, c2, ev2) ->
  p (ChainRunKw docs) = false -> p (ChainRunPos docs) = false ->
  (forall q, p (LlmInvoke q) = false) -> (forall q, p (LlmPredict q) = false) ->
  without p ev2 = ev2.
Proof.
  intros E Hkw Hpos Hi Hp. apply without_none.
  pose proof (run_chain_log (fun ev => p ev = false) chain docs c
                Hkw Hpos Hi Hp) as H.
  by rewrite E in H.
Qed.


Lemma str_join_length (sep : str) (xs : list str) (n : nat) :
  Forall (fun x => length x <= n) xs ->
  length (str_join sep xs) <= (n + length sep) * length xs.
Proof.
  induction 1 as [|x rest Hx Hrest IH]; [simpl; lia|].
  destruct rest as [|y rest].
  - simpl. lia.
  - rewrite str_join_cons, !length_app. simpl length in *. lia.
Qed.

(** X12: the preview shows at most 3000 characters of every document: its
    length is at most 3002 times the number of documents, however long the
    page is; and when no document is longer than 3000 characters it is the
    very text that the fallback chain puts into the prompt. *)
Theorem preview_is_bounded (docs : list Document) :
  length (preview docs) <= 3002 * length docs
  /\ (Forall (fun d => length (page_content d) <= 3000) docs ->
      preview docs = str_join nlnl (map page_content docs)).
Proof.
  split.
  - unfold preview.
    pose proof (str_join_length nlnl
                  (map (fun d => take 3000 (page_content d)) docs) 3000) as H.
    rewrite length_map in H. change (length nlnl) with 2 in H.
    apply H. apply Forall_map, Forall_forall. intros d _.
    apply firstn_le_length.
  - intros Hall. unfold preview. f_equal.
    induction Hall as [|d rest Hd _ IH]; [done|].
    cbn [map]. by rewrite IH, take_ge.
Qed.

(** X13: with the fallback chain, the chain type chosen in the sidebar has
    no effect on the summary: two runs that differ only in that choice
    write the same text, make the same calls to the model client, with the
    same prompts, and end in the same cache. *)
Theorem fallback_ignores_chain_type (env : collaborators) (key : str)
    (words : Z) (show : bool) (ct1 ct2 : str) (dev : bool) (u : str)
    (sub : bool) (c : cache) :
  import_chains_summarize env = None ->
  import_chains env = None ->
  let r1 := main_logic env (mkInputs key words show ct1 dev u sub) c in
  let r2 := main_logic env (mkInputs key words show ct2 dev u sub) c in
  written (events_of r1) = written (events_of r2)
  /\ without (fun ev => negb (is_inference ev)) (events_of r1)
     = without (fun ev => negb (is_inference ev)) (events_of r2)
  /\ cache_of r1 = cache_of r2.
Proof.
  intros H1 H2 r1 r2. subst r1 r2. rewrite !main_logic_cases.
  unfold load_summarize_chain. rewrite H1, H2.
  unfold fallback_load_summarize_chain.
  cbn [submit groq_api_key url show_extracted chain_type dev_mode
         summary_words].
  destruct (negb sub); [done|].
  destruct (negb (str_truthy _)); [done|].
  destruct (negb (validators_url _ _)); [done|].
  unfold before_load, before_run, unwritable_report, error_report,
    success_report.
  cbn [submit groq_api_key url show_extracted chain_type dev_mode
         summary_words].
  destruct (load_url_content env u c) as [[[[|d ds]|e] c1] ev1];
    [done| |done].
  cbv zeta.
  destruct (run_chain _ (d :: ds) c1) as [[[s|e] c2] ev2];
    try destruct (utf8_encodable s);
    cbn [result_of cache_of events_of fst snd];
    rewrite !written_app, !without_app;
    destruct show, dev; done.
Qed.

Lemma fallback_ignores_chain_type_witness :
  let env := env_answering (Ok [doc_A]) in
  let u := lit "https://example.com/article" in
  let r1 := main_logic env
              (mkInputs (lit "k") 300 false (lit "stuff") false u true) ∅ in
  let r2 := main_logic env
              (mkInputs (lit "k") 300 false (lit "map_reduce") false u true) ∅ in
  written (events_of r1) = written (events_of r2)
  /\ without (fun ev => negb (is_inference ev)) (events_of r1)
     = without (fun ev => negb (is_inference ev)) (events_of r2)
  /\ cache_of r1 = cache_of r2.
Proof.
  apply (fallback_ignores_chain_type (env_answering (Ok [doc_A])) (lit "k")
           300 false (lit "stuff") (lit "map_reduce") false
           (lit "https://example.com/article") true ∅); reflexivity.
Defined.

(** ** Templates *)

Lemma str_replace_no_occurrence (old new s : str) :
  old <> [] ->
  str_contains old s = false -> str_replace old new s = s.
Proof.
  destruct old as [|h t]; [done|]. intros _.
  induction s as [|ch s IH]; [done|].
  cbn [str_contains]. intros H. apply orb_false_iff in H as [Hhead Hrest].
  rewrite str_replace_step by done. by rewrite IH.
Qed.

(** X14: a template in which "{text}" does not occur is passed to the
    model as it is: the documents do not reach the prompt. *)
Theorem template_without_slot_drops_documents (p : PromptTemplate)
    (input_documents : option (list Document)) :
  str_contains (lit "{text}") (template p) = false ->
  final_prompt (Some p) input_documents = template p.
Proof.
  intros H. unfold final_prompt. cbn [getattr_template].
  by apply str_replace_no_occurrence.
Qed.

Lemma template_without_slot_drops_documents_witness :
  final_prompt (Some (mkPromptTemplate (lit "Summarize {content}.") []))
    (Some [doc_A; doc_B])
  = lit "Summarize {content}.".
Proof.
  apply (template_without_slot_drops_documents
           (mkPromptTemplate (lit "Summarize {content}.") [])
           (Some [doc_A; doc_B])).
  reflexivity.
Defined.

(** X15: the prompt rendered from a template of [make_prompt] is the fixed
    head, the joined document text and the fixed tail, for every word
    count and every text: the text is copied as it is, also when it holds
    braces or "{text}" itself, and the prompt is 37 characters longer than
    head and text together. *)
Theorem make_prompt_renders_verbatim (words : Z) (docs : list Document) :
  let text := str_join nlnl (map page_content docs) in
  final_prompt (Some (make_prompt words)) (Some docs)
  = prompt_head words ++ text ++ prompt_tail
  /\ length (final_prompt (Some (make_prompt words)) (Some docs))
     = length (prompt_head words) + length text + 37
  /\ substring text (final_prompt (Some (make_prompt words)) (Some docs)).
Proof.
  intros text. rewrite final_prompt_make_prompt. fold text.
  split; [done|]. split.
  - rewrite !length_app. change (length prompt_tail) with 37. lia.
  - by exists (prompt_head words), prompt_tail.
Qed.

(** X16: with a template of [make_prompt], what the fallback chain returns
    when both calls to the model raise is never empty and is no summary:
    it begins with the instruction "Provide a clear, neutral summary in
    about ". *)
Theorem fallback_text_is_the_prompt (llm : LLM) (words : Z)
    (docs : list Document) (c : cache) (e1 e2 : exn) :
  let p := final_prompt (Some (make_prompt words)) (Some docs) in
  invoke llm p = Raise e1 ->
  predict llm p = Raise e2 ->
  exists s,
    result_of (SimpleChain_run llm (Some (make_prompt words)) (Some docs) c)
    = Ok s
    /\ lit "Provide a clear, neutral summary in about " `prefix_of` s
    /\ s <> [].
Proof.
  intros p Hi Hp. rewrite SimpleChain_run_layers. cbv zeta. fold p.
  rewrite Hi, Hp. exists (take 5000 p). split; [done|].
  assert (Hpre : lit "Provide a clear, neutral summary in about "
                   `prefix_of` take 5000 p).
  { subst p. rewrite final_prompt_make_prompt. unfold prompt_head.
    rewrite <- !app_assoc.
    rewrite take_app_ge by (vm_compute; lia).
    by eexists. }
  split; [done|]. intros Hnil. rewrite Hnil in Hpre.
  destruct Hpre as [k Hk]. discriminate Hk.
Qed.

Lemma fallback_text_is_the_prompt_witness :
  exists s,
    result_of (SimpleChain_run llm_down (Some (make_prompt 300))
                 (Some [doc_A; doc_B]) ∅) = Ok s
    /\ lit "Provide a clear, neutral summary in about " `prefix_of` s
    /\ s <> [].
Proof.
  apply (fallback_text_is_the_prompt llm_down 300 [doc_A; doc_B] ∅
           (mkExn AttributeError (lit "invoke"))
           (mkExn ConnectionError (lit "predict"))); reflexivity.
Defined.

(** ** The session state and the debug panel *)

Lemma main_logic_ok (env : collaborators) (i : inputs) (c : cache) :
  result_of (main_logic env i c) = Ok tt.
Proof. handler_cases env i c; reflexivity. Qed.

Lemma session_after_app (l1 l2 : list event) (ss : session_state) :
  session_after (l1 ++ l2) ss = session_after l2 (session_after l1 ss).
Proof. apply fold_left_app. Qed.

Lemma session_after_none (evs : list event) (ss : session_state) :
  Forall (fun ev => is_session_update ev = false) evs ->
  session_after evs ss = ss.
Proof.
  intros H. revert ss. induction H as [|[] evs Hev _ IH]; intros ss;
    cbn; try done; apply IH.
Qed.

Lemma load_session (env : collaborators) (url : str) (c c1 : cache)
    (r : result (list Document)) (ev1 : list event) (ss : session_state) :
  load_url_content env url c = (r, c1, ev1) -> session_after ev1 ss = ss.
Proof.
  intros E. apply session_after_none.
  pose proof (load_url_content_log (fun ev => is_session_update ev = false)
                env url c (fun _ _ _ => eq_refl)) as H.
  by rewrite E in H.
Qed.

Lemma run_chain_session (chain : Chain) (docs : list Document)
    (c c2 : cache) (r : result str) (ev2 : list event) (ss : session_state) :
  run_chain chain docs c = (r, c2, ev2) -> session_after ev2 ss = ss.
Proof.
  intros E. apply session_after_none.
  pose proof (run_chain_log (fun ev => is_session_update ev = false)
                chain docs c eq_refl eq_refl (fun _ => eq_refl)
                (fun _ => eq_refl)) as H.
  by rewrite E in H.
Qed.

Lemma before_run_session (i : inputs) (docs : list Document)
    (ss : session_state) :
  session_after (before_run i docs) ss = ss.
Proof. unfold before_run. by destruct (show_extracted i). Qed.

Lemma error_report_session (i : inputs) (e : exn) (ss : session_state) :
  session_after (error_report i e) ss = ss.
Proof. unfold error_report. by destruct (dev_mode i). Qed.

Lemma unwritable_report_session (i : inputs) (ss : session_state) :
  session_after (unwritable_report i) ss = ss.
Proof. unfold unwritable_report, error_report. by destruct (dev_mode i). Qed.

(** What a run of the handler does to the session state: nothing, or, in
    a run that reports success, one update with the data of that run. *)
Lemma session_after_main_logic (env : collaborators) (i : inputs) (c : cache)
    (ss : session_state) :
  session_after (events_of (main_logic env i c)) ss = ss
  \/ (exists docs summary,
        count_events is_success (events_of (main_logic env i c)) = 1
        /\ session_after (events_of (main_logic env i c)) ss
           = session_state_update
               (mkSession (url i) docs (make_prompt (summary_words i))
                  (chain_type i) summary model_name) ss).
Proof.
  handler_cases env i c; cbn [events_of snd];
    rewrite ?count_events_app, ?session_after_app;
    rewrite ?(load_count is_success _ _ _ _ _ _ Eload) by done;
    rewrite ?(run_chain_count is_success _ _ _ _ _ _ Erun) by done;
    rewrite ?(load_session _ _ _ _ _ _ _ Eload);
    rewrite ?before_run_session;
    rewrite ?(run_chain_session _ _ _ _ _ _ _ Erun);
    rewrite ?error_report_session, ?unwritable_report_session.
  all: first
         [ by left
         | right; eexists _, _; split; [by count_reports|done] ].
Qed.

Lemma session_state_update_complete (s : session_entry) (ss : session_state) :
  session_complete (session_state_update s ss).
Proof.
  exists (ss_model s), (ss_chain_type s), (ss_docs s), (ss_summary s),
    (ss_prompt s).
  unfold session_state_update. repeat split; by simplify_map_eq.
Qed.

Lemma session_wf_dev_mode (b : bool) (ss : session_state) :
  session_wf ss -> session_wf (<["dev_mode" := SBool b]> ss).
Proof.
  intros [Hnone | (model & ct & docs & summary & p & H)].
  - left. by simplify_map_eq.
  - right. exists model, ct, docs, summary, p.
    destruct H as (? & ? & ? & ? & ?). repeat split; by simplify_map_eq.
Qed.

Lemma debug_panel_dev_mode (python : str) (dev b : bool) (ss : session_state) :
  debug_panel python dev (<["dev_mode" := SBool b]> ss)
  = debug_panel python dev ss.
Proof.
  unfold debug_panel. by rewrite !lookup_insert_ne by done.
Qed.

Lemma debug_panel_ok (python : str) (dev : bool) (ss : session_state) :
  session_wf ss -> panel_ok (debug_panel python dev ss).
Proof.
  intros Hwf. unfold debug_panel.
  destruct dev; [|done]. cbn [andb].
  destruct Hwf as [Hnone | (model & ct & docs & summary & p & H)].
  - rewrite Hnone. by rewrite bool_decide_eq_false_2 by (by intros [? ?]).
  - destruct H as (-> & -> & -> & -> & ->). by case_bool_decide.
Qed.

Lemma script_keeps_wf (env : collaborators) (python : str) (clear : bool)
    (i : inputs) (ss : session_state) (c : cache) :
  session_wf ss ->
  session_wf (run_session (script env python clear i ss c)).
Proof.
  intros Hwf. unfold script. destruct clear; cbn [run_session].
  - by left.
  - destruct (session_after_main_logic env i c
                (<["dev_mode" := SBool (dev_mode i)]> ss))
      as [-> | (docs & summary & _ & ->)].
    + by apply session_wf_dev_mode.
    + right. apply session_state_update_complete.
Qed.

Lemma session_keeps_wf (env : collaborators) (python : str)
    (runs : list (bool * inputs)) (ss : session_state) (c : cache) :
  session_wf ss -> session_wf (session env python runs ss c).1.
Proof.
  revert ss c. induction runs as [|[clear i] runs IH]; intros ss c Hwf;
    [done|].
  cbn [session]. apply IH. by apply script_keeps_wf.
Qed.






(** ** The fallback chain under the retry *)

(** X23: with the fallback chain the positional retry never happens:
    [chain.run] is called once, by keyword, returns a string and leaves
    the cache alone, whatever the model client does. *)
Theorem fallback_chain_is_called_once (llm : LLM)
    (prompt : option PromptTemplate) (docs : list Document) (c : cache) :
  let out := run_chain (SimpleChain llm prompt) docs c in
  (exists s, result_of out = Ok s)
  /\ count_events is_run_kw (events_of out) = 1
  /\ count_events is_run_pos (events_of out) = 0
  /\ 1 <= count_events is_inference (events_of out) <= 2
  /\ cache_of out = c.
Proof.
  intros out. subst out. rewrite run_chain_fallback. cbv zeta.
  cbn [result_of cache_of events_of fst snd].
  split; [by eexists|].
  destruct (invoke llm _); cbn; repeat split; lia.
Qed.
